(** * DSPy assertions: constraint primitives and the backtracking handler

    A shallow embedding of [dspy/primitives/assertions.py].  Python objects
    that are mutated in place and shared (the trace list held by
    [dsp.settings.trace], predictor instances) live in a store indexed by
    their identity; Python dictionaries, whose iteration order is the
    insertion order, are association lists; code that raises is a
    computation in a state-and-exception monad over that store.

    The definitions keep the names of the source.  What the source takes
    from other packages is kept small: [uuid.uuid4] is a supply of ids that
    never repeats one, [dspy.settings.context] captures the flags, overrides
    them and restores them, and a step that ran has appended its entry to
    the trace. *)

From Stdlib Require Import List String Ascii Bool Arith ZArith Lia DecimalString.
Import ListNotations.
Open Scope string_scope.
Open Scope list_scope.

Set Implicit Arguments.

(** ** Python values *)

(** The values that flow through the modelled code: the [result] handed to a
    constraint (any object, of which only [bool] is accepted), step inputs
    and outputs, the default values bound by the forward wrapper, and the
    value a pipeline returns. *)
Inductive PyVal : Type :=
| PyNone
| PyBool (b : bool)
| PyInt (z : Z)
| PyStr (s : string)
| PyStrList (l : list string).

(** Python's [==] on these values; [True == 1] and [False == 0] hold, and
    equal values hash alike, so they are one dictionary key. *)
Definition py_eqb (x y : PyVal) : bool :=
  match x, y with
  | PyNone, PyNone => true
  | PyBool a, PyBool b => Bool.eqb a b
  | PyInt a, PyInt b => Z.eqb a b
  | PyBool a, PyInt b | PyInt b, PyBool a => Z.eqb (if a then 1 else 0)%Z b
  | PyStr a, PyStr b => String.eqb a b
  | PyStrList a, PyStrList b => if list_eq_dec string_dec a b then true else false
  | _, _ => false
  end.

(** ** Python dictionaries

    A [dict] keeps its keys in insertion order; assigning to a key that is
    present keeps the key's position. *)
Section PyDict.
Variables K V : Type.
Variable eqb : K -> K -> bool.

Definition pydict := list (K * V).

Fixpoint dict_get (k : K) (d : pydict) : option V :=
  match d with
  | [] => None
  | (k', v) :: d' => if eqb k k' then Some v else dict_get k d'
  end.

Definition dict_mem (k : K) (d : pydict) : bool :=
  match dict_get k d with Some _ => true | None => false end.

(** [d[k] = v] *)
Fixpoint dict_set (k : K) (v : V) (d : pydict) : pydict :=
  match d with
  | [] => [(k, v)]
  | (k', v') :: d' =>
      if eqb k k' then (k', v) :: d' else (k', v') :: dict_set k v d'
  end.

(** [d.pop(k, None)], the dictionary that is left *)
Fixpoint dict_pop (k : K) (d : pydict) : pydict :=
  match d with
  | [] => []
  | (k', v) :: d' => if eqb k k' then d' else (k', v) :: dict_pop k d'
  end.

(** [d.setdefault(k, v)]: the dictionary afterwards and the value returned *)
Definition dict_setdefault (k : K) (v : V) (d : pydict) : pydict * V :=
  match dict_get k d with
  | Some v' => (d, v')
  | None => (dict_set k v d, v)
  end.

Definition dict_keys (d : pydict) : list K := map fst d.
End PyDict.

(** ** Objects and their identities *)

(** A predictor (a pipeline step) is a Python object; [PredId] is its
    identity. *)
Definition PredId := nat.
(** The identity of a list object holding an execution trace. *)
Definition Loc := nat.
(** A constraint id, [str(uuid.uuid4())]. *)
Definition Id := nat.
(** The declared signature of a predictor, which [target_module] is compared
    with.  An empty one is falsy. *)
Definition Signature := string.

Definition Store := pydict string PyVal.

(** An input field of a template: [dspy.InputField(prefix, desc, format)]. *)
Inductive Format := FormatStr | FormatPassages2Text | FormatDefault.
Record Field := mkField { prefix : string; desc : string; format : Format }.

(** [dsp.Template(instructions, **kwargs)]: the fields in keyword order. *)
Record Template := mkTemplate {
  instructions : string;
  kwargs : pydict string Field
}.

(** A predictor's [forward]: the method it was built with, or the closure
    [new_forward] of [_wrap_forward_with_set_fields], which holds the
    default arguments and the forward it wraps. *)
Inductive Forward :=
| original_forward
| new_forward (default_args : Store) (wrapped : Forward).

Record Predictor := mkPredictor {
  signature : Signature;
  extended_signature : Template;
  forward : Forward
}.

(** An entry of the trace: [(predictor, inputs, outputs)], the outputs being
    the [_store] of the prediction. *)
Record TraceElement := mkTraceElement {
  te_mod : PredId;
  te_inputs : Store;
  te_outputs : Store
}.

(** ** Exceptions *)

Inductive Exn :=
| DSPyAssertionError (id : Id) (msg : string) (state : Loc)
| DSPySuggestionError (id : Id) (msg : string) (state : Loc)
| ValueError (msg : string)
| IndexError
| KeyError
| OtherError (msg : string).

Inductive Result (A : Type) :=
| Ok (a : A)
| Raise (e : Exn).
Arguments Ok {A} a.
Arguments Raise {A} e.

(** ** The world the code runs in *)

(** The constraint classes that define [__call__]. *)
Inductive Kind := KAssert | KSuggest.

(** A constraint object whose attributes were set by [__init__]. *)
Record Constraint := mkConstraint {
  c_cls : Kind;
  c_id : Id;
  c_result : PyVal;
  c_msg : string;
  c_target_module : option Signature
}.

(** A key of [Constraint._registry]: [(result, msg, target_module)]. *)
Definition RegKey := (PyVal * string * option Signature)%type.

Definition option_eqb {A} (eqb : A -> A -> bool) (x y : option A) : bool :=
  match x, y with
  | None, None => true
  | Some a, Some b => eqb a b
  | _, _ => false
  end.

Definition key_eqb (a b : RegKey) : bool :=
  let '(r1, m1, t1) := a in
  let '(r2, m2, t2) := b in
  py_eqb r1 r2 && String.eqb m1 m2 && option_eqb String.eqb t1 t2.

(** The two bypass flags of [dspy.settings]. *)
Record Config := mkConfig {
  bypass_assert : bool;
  bypass_suggest : bool
}.

Record World := mkWorld {
  (** the flags in force *)
  config : Config;
  (** the list object [dsp.settings.trace] is bound to *)
  trace : Loc;
  (** the list objects, by identity *)
  lists : Loc -> list TraceElement;
  (** the predictor objects, by identity *)
  predictors : PredId -> Predictor;
  (** [Constraint._registry] *)
  registry : pydict RegKey Constraint;
  (** the ids [uuid.uuid4] has not handed out yet: it never repeats one *)
  uuid_supply : nat;
  (** what was written to the logger *)
  log : list string;
  (** the flags each invocation of the pipeline by a handler started
      with, oldest first; written by [invoke] only and read by no code *)
  calls : list Config
}.

Definition set_config (c : Config) (w : World) : World :=
  mkWorld c (trace w) (lists w) (predictors w) (registry w) (uuid_supply w)
    (log w) (calls w).
Definition set_lists (l : Loc -> list TraceElement) (w : World) : World :=
  mkWorld (config w) (trace w) l (predictors w) (registry w) (uuid_supply w)
    (log w) (calls w).
Definition set_predictors (p : PredId -> Predictor) (w : World) : World :=
  mkWorld (config w) (trace w) (lists w) p (registry w) (uuid_supply w)
    (log w) (calls w).
Definition set_registry (r : pydict RegKey Constraint) (w : World) : World :=
  mkWorld (config w) (trace w) (lists w) (predictors w) r (uuid_supply w)
    (log w) (calls w).
Definition set_uuid_supply (n : nat) (w : World) : World :=
  mkWorld (config w) (trace w) (lists w) (predictors w) (registry w) n
    (log w) (calls w).
Definition set_log (l : list string) (w : World) : World :=
  mkWorld (config w) (trace w) (lists w) (predictors w) (registry w)
    (uuid_supply w) l (calls w).
Definition set_calls (l : list Config) (w : World) : World :=
  mkWorld (config w) (trace w) (lists w) (predictors w) (registry w)
    (uuid_supply w) (log w) l.

(** Update of a store at one identity. *)
Definition upd {A} (f : nat -> A) (i : nat) (a : A) : nat -> A :=
  fun j => if Nat.eqb j i then a else f j.

(** ** Computations that may raise *)

Definition M (A : Type) := World -> Result A * World.

Definition ret {A} (a : A) : M A := fun w => (Ok a, w).
Definition raise {A} (e : Exn) : M A := fun w => (Raise e, w).
Definition bind {A B} (m : M A) (f : A -> M B) : M B :=
  fun w =>
    match m w with
    | (Ok a, w') => f a w'
    | (Raise e, w') => (Raise e, w')
    end.

Declare Scope py_scope.
Delimit Scope py_scope with py.
Notation "x <- m ;; k" := (bind m (fun x => k))
  (at level 100, m at next level, right associativity) : py_scope.
Notation "m ;;; k" := (bind m (fun _ => k))
  (at level 100, right associativity) : py_scope.
Open Scope py_scope.

Definition get_world : M World := fun w => (Ok w, w).
Definition modify (f : World -> World) : M unit := fun w => (Ok tt, f w).

(** [logger.error(s)] *)
Definition logger_error (s : string) : M unit :=
  modify (fun w => set_log (log w ++ [s]) w).

(** [str(uuid.uuid4())] *)
Definition uuid4 : M Id :=
  fun w => (Ok (uuid_supply w), set_uuid_supply (S (uuid_supply w)) w).

(** The list [dsp.settings.trace] as it is now. *)
Definition current_trace (w : World) : list TraceElement := lists w (trace w).

(** [dsp.settings.trace.append(e)], as a step does after it ran: the list
    object is changed in place. *)
Definition trace_append (e : TraceElement) : M unit :=
  modify (fun w => set_lists (upd (lists w) (trace w) (current_trace w ++ [e])) w).

(** ** Scoped configuration *)

(** Modelled from the spec: [dspy.settings.context] is defined in the [dsp]
    package.  Entering the scope captures the flags in force and applies the
    overrides; leaving it, on a normal return as on an exception, restores
    the captured flags. *)
Definition context {A} (overrides : Config -> Config) (body : M A) : M A :=
  fun w =>
    let captured := config w in
    let (r, w') := body (set_config (overrides captured) w) in
    (r, set_config captured w').

(** ** Assertion primitives *)

(** [Assert.__call__] *)
Definition Assert___call__ (self : Constraint) : M bool :=
  match c_result self with
  | PyBool result =>
      if result then ret true
      else
        w <- get_world;;
        if bypass_assert (config w) then
          logger_error ("AssertionError: " ++ c_msg self)%string;;;
          ret true
        else
          logger_error ("AssertionError: " ++ c_msg self)%string;;;
          raise (DSPyAssertionError (c_id self) (c_msg self) (trace w))
  | _ => raise (ValueError "Assertion function should always return [bool]")
  end.

(** [Suggest.__call__] *)
Definition Suggest___call__ (self : Constraint) : M bool :=
  match c_result self with
  | PyBool result =>
      if result then ret true
      else
        w <- get_world;;
        if bypass_suggest (config w) then
          logger_error ("SuggestionFailed: " ++ c_msg self)%string;;;
          ret true
        else
          logger_error ("SuggestionFailed: " ++ c_msg self)%string;;;
          raise (DSPySuggestionError (c_id self) (c_msg self) (trace w))
  | _ => raise (ValueError "Suggestion function should always return [bool]")
  end.

(** [self.__call__()]: the method of the class of the object [self] is
    bound to. *)
Definition Constraint___call__ (self : Constraint) : M bool :=
  match c_cls self with
  | KAssert => Assert___call__ self
  | KSuggest => Suggest___call__ self
  end.

(** [hash(v)] returns for these values, a list apart: for a list it raises
    [TypeError]. *)
Definition hashable (v : PyVal) : bool :=
  match v with PyStrList _ => false | _ => true end.

(** The first statement of [Constraint.__init__], up to the call.  The test
    [key in Constraint._registry] hashes the key, which raises [TypeError]
    when [result] is a list, before anything is read or written.
    Otherwise the statement yields the constraint the name [self] is bound
    to afterwards, and the attributes it has set on the instance under
    construction.  When the key is registered, [self] is rebound to the
    registered object and the instance receives no attribute ([None]);
    otherwise the instance gets a fresh id and the arguments, and is
    registered. *)
Definition Constraint_self (cls : Kind) (result : PyVal) (msg : string)
    (target_module : option Signature) : M (Constraint * option Constraint) :=
  if hashable result then
    w <- get_world;;
    let key := (result, msg, target_module) in
    match dict_get key_eqb key (registry w) with
    | Some registered => ret (registered, None)
    | None =>
        id <- uuid4;;
        let self := mkConstraint cls id result msg target_module in
        modify (fun w => set_registry (dict_set key_eqb key self (registry w)) w);;;
        ret (self, Some self)
    end
  else raise (OtherError "TypeError: unhashable type: 'list'").

(** [Constraint.__init__] for an instance of class [cls]: the object [self]
    is bound to is evaluated. *)
Definition Constraint___init__ (cls : Kind) (result : PyVal) (msg : string)
    (target_module : option Signature) : M unit :=
  bound <- Constraint_self cls result msg target_module;;
  Constraint___call__ (fst bound);;;
  ret tt.

(** The expression [cls(result, msg, target_module)]: a new instance is
    made, [__init__] runs on it, and when that returns the expression is the
    instance, here as the attributes it holds.  An instance that holds none
    has no [id]: reading it raises [AttributeError]. *)
Definition Constraint_instance (cls : Kind) (result : PyVal) (msg : string)
    (target_module : option Signature) : M (option Constraint) :=
  bound <- Constraint_self cls result msg target_module;;
  Constraint___call__ (fst bound);;;
  ret (snd bound).

(** [dspy.Assert(result, msg)] and [dspy.Suggest(result, msg)] as pipelines
    write them. *)
Definition Assert := Constraint___init__ KAssert.
Definition Suggest := Constraint___init__ KSuggest.

(** ** Assertion handlers *)

(** A call of the pipeline [func] made by a handler; the flags the call
    starts with are noted in [calls]. *)
Definition invoke {A} (func : M A) : M A :=
  fun w =>
    let (r, w') := func w in
    (r, set_calls (calls w ++ [config w]) w').

Definition noop_handler {A} (func : M A) : M A :=
  context (fun _ => mkConfig true true) (invoke func).

Definition bypass_suggest_handler {A} (func : M A) : M A :=
  context (fun _ => mkConfig false true) (invoke func).

Definition bypass_assert_handler {A} (func : M A) : M A :=
  context (fun c => mkConfig true (bypass_suggest c)) (invoke func).

Definition assert_no_except_handler (func : M PyVal) : M PyVal :=
  fun w =>
    match invoke func w with
    | (Raise (DSPyAssertionError _ _ _), w') => (Ok PyNone, w')
    | other => other
    end.

(** ** Assertion helpers *)

(** ["\n".join(...)] *)
Definition newline : string := String (ascii_of_nat 10) EmptyString.

(** [_build_error_msg] *)
Definition _build_error_msg (feedback_msgs : list string) : string :=
  String.concat newline (map (fun msg => msg) feedback_msgs).

(** [repr] of a [str], a character standing for the code point of its
    number.  The string is put in single quotes, or in double quotes when it
    holds a single quote and no double quote.  A backslash and the enclosing
    quote are escaped with a backslash; tab, newline and carriage return are
    written with their letter; any other character that is not printable is
    written with its two hexadecimal digits. *)
Definition squote : ascii := ascii_of_nat 39.
Definition dquote : ascii := ascii_of_nat 34.
Definition backslash : ascii := ascii_of_nat 92.

Fixpoint string_mem (c : ascii) (s : string) : bool :=
  match s with
  | EmptyString => false
  | String c' s' => Ascii.eqb c c' || string_mem c s'
  end.

Definition repr_quote (s : string) : ascii :=
  if string_mem squote s && negb (string_mem dquote s) then dquote else squote.

Definition hex_digit (n : nat) : ascii :=
  nth n (list_ascii_of_string "0123456789abcdef") "0"%char.

(** [str.isprintable] on the code points below 256: the controls, the
    no-break space and the soft hyphen are not. *)
Definition is_printable (n : nat) : bool :=
  ((32 <=? n)%nat && (n <? 127)%nat)
  || ((161 <=? n)%nat && negb (n =? 173)%nat).

Definition repr_char (quote c : ascii) : string :=
  let n := nat_of_ascii c in
  if Ascii.eqb c quote || Ascii.eqb c backslash then
    String backslash (String c EmptyString)
  else if (n =? 9)%nat then String backslash "t"
  else if (n =? 10)%nat then String backslash "n"
  else if (n =? 13)%nat then String backslash "r"
  else if is_printable n then String c EmptyString
  else
    String backslash
      (String "x"
         (String (hex_digit (n / 16))
            (String (hex_digit (n mod 16)) EmptyString))).

Fixpoint repr_chars (quote : ascii) (s : string) : string :=
  match s with
  | EmptyString => EmptyString
  | String c s' => (repr_char quote c ++ repr_chars quote s')%string
  end.

Definition py_quote (s : string) : string :=
  let quote := repr_quote s in
  String quote (repr_chars quote s ++ String quote EmptyString)%string.

(** What [str.format] prints for a value: its [repr], a list and a
    dictionary printing the [repr] of what they hold. *)

Definition py_repr (v : PyVal) : string :=
  match v with
  | PyNone => "None"
  | PyBool true => "True"
  | PyBool false => "False"
  | PyInt z => DecimalString.NilZero.string_of_int (Z.to_int z)
  | PyStr s => py_quote s
  | PyStrList l => ("[" ++ String.concat ", " (map py_quote l) ++ "]")%string
  end.

Definition repr_store (d : Store) : string :=
  ("{"
   ++ String.concat ", "
        (map (fun kv => (py_quote (fst kv) ++ ": " ++ py_repr (snd kv))%string) d)
   ++ "}")%string.

(** A value of [failure_traces[predictor]]: suggestion id to
    [(ip, op, msg)]. *)
Definition FailureTraces := pydict Id (Store * Store * string).

(** [_build_trace_passages] *)
Definition _build_trace_passages (failure_traces : FailureTraces) : list string :=
  map (fun item =>
         let '(_, (ip, op, msg)) := item in
         ("Failed Instruction: " ++ msg ++ " | Output: " ++ repr_store op)%string)
      failure_traces.

(** [l.index(x)] *)
Fixpoint list_index (x : string) (l : list string) : option nat :=
  match l with
  | [] => None
  | y :: l' =>
      if String.eqb y x then Some 0
      else option_map S (list_index x l')
  end.

(** [l.insert(position, x)] *)
Definition list_insert {A} (position : nat) (x : A) (l : list A) : list A :=
  firstn position l ++ x :: skipn position l.

(** [{key: value(key) for key in keys}], filling [acc] from the left.  In
    [_extend_predictor_signature] every key has a field, in the keyword
    arguments or in the old signature. *)
Fixpoint dict_comprehension (keys : list string)
    (value : string -> option Field) (acc : pydict string Field)
    : pydict string Field :=
  match keys with
  | [] => acc
  | key :: keys' =>
      match value key with
      | Some f => dict_comprehension keys' value (dict_set String.eqb key f acc)
      | None => dict_comprehension keys' value acc
      end
  end.

(** The new keyword dictionary of [_extend_predictor_signature], or [None]
    where [old_keys.index("question")] raises. *)
Definition extend_kwargs (old : pydict string Field)
    (kws : pydict string Field) : option (pydict string Field) :=
  let old_keys := dict_keys old in
  match list_index "question" old_keys with
  | None => None
  | Some idx =>
      let position := idx + 1 in
      let old_keys :=
        fold_left (fun keys key => list_insert position key keys)
                  (rev (dict_keys kws)) old_keys in
      let value key :=
        match dict_get String.eqb key kws with
        | Some f => Some f
        | None => dict_get String.eqb key old
        end in
      Some (dict_comprehension old_keys value [])
  end.

Definition set_extended_signature (p : PredId) (t : Template) : M unit :=
  modify (fun w =>
    let pr := predictors w p in
    set_predictors
      (upd (predictors w) p (mkPredictor (signature pr) t (forward pr))) w).

Definition set_forward (p : PredId) (f : Forward) : M unit :=
  modify (fun w =>
    let pr := predictors w p in
    set_predictors
      (upd (predictors w) p
           (mkPredictor (signature pr) (extended_signature pr) f)) w).

(** [_extend_predictor_signature(predictor, **kwargs)] *)
Definition _extend_predictor_signature (predictor : PredId)
    (kws : pydict string Field) : M unit :=
  w <- get_world;;
  let old_signature := extended_signature (predictors w predictor) in
  match extend_kwargs (kwargs old_signature) kws with
  | None => raise (ValueError "'question' is not in list")
  | Some extended_kwargs =>
      set_extended_signature predictor
        (mkTemplate (instructions old_signature) extended_kwargs)
  end.

(** [_revert_predictor_signature(predictor, *args)] *)
Definition _revert_predictor_signature (predictor : PredId)
    (args : list string) : M unit :=
  w <- get_world;;
  let sig := extended_signature (predictors w predictor) in
  let old_signature_kwargs :=
    fold_left (fun d key => dict_pop String.eqb key d) args (kwargs sig) in
  set_extended_signature predictor
    (mkTemplate (instructions sig) old_signature_kwargs).

(** [_wrap_forward_with_set_fields(predictor, default_args)] *)
Definition _wrap_forward_with_set_fields (predictor : PredId)
    (default_args : Store) : M unit :=
  w <- get_world;;
  let original := forward (predictors w predictor) in
  set_forward predictor (new_forward default_args original).

(** The keyword arguments the method a predictor was built with receives
    when [fwd] is called with [kws]: each [new_forward] on the way does
    [kwargs.setdefault(arg, value)] for its defaults. *)
Fixpoint forwarded_kwargs (fwd : Forward) (kws : Store) : Store :=
  match fwd with
  | original_forward => kws
  | new_forward default_args wrapped =>
      forwarded_kwargs wrapped
        (fold_left
           (fun kws av => fst (dict_setdefault String.eqb (fst av) (snd av) kws))
           default_args kws)
  end.

(** ** The backtracking handler *)

(** The local variables of [wrapper] in [suggest_backtrack_handler]. *)
Record Locals := mkLocals {
  backtrack_to : option PredId;
  error_msg : option string;
  result : PyVal;
  predictors_to_original_forward : pydict PredId Forward;
  predictor_feedbacks : pydict (option PredId) (list string);
  failure_traces : pydict (option PredId) FailureTraces
}.

Definition pred_key_eqb : option PredId -> option PredId -> bool :=
  option_eqb Nat.eqb.

Definition initial_locals : Locals := mkLocals None None PyNone [] [] [].

(** The two fields the handler adds to a signature. *)
Definition traces_field : Field :=
  mkField "Counter Examples:"
    "Traces of some incorrect outputs that violate instructions"
    FormatPassages2Text.
Definition feedback_field : Field :=
  mkField "Instruction:" "Some instructions you must satisfy" FormatStr.

(** The keyword arguments of the call of [_extend_predictor_signature] at
    lines 269-273. *)
Definition injected_fields : pydict string Field :=
  [("_assert_feedback", feedback_field); ("_assert_traces", traces_field)].

(** [if target_module:] *)
Definition truthy (target_module : option Signature) : bool :=
  match target_module with
  | Some s => negb (String.eqb s "")
  | None => false
  end.

(** The value of [backtrack_to] after the search of lines 300-308, entered
    with a trace that is not empty: with a target, the entries are visited
    from the last one down and the first whose predictor has that signature
    is taken, [backtrack_to] keeping its value when there is none; without a
    target, the predictor of the last entry. *)
Definition resolve_backtrack_to (target_module : option Signature)
    (preds : PredId -> Predictor) (tr : list TraceElement)
    (backtrack_to : option PredId) : option PredId :=
  if truthy target_module then
    match
      find (fun trace_element =>
              option_eqb String.eqb
                (Some (signature (preds (te_mod trace_element)))) target_module)
           (rev tr)
    with
    | Some trace_element => Some (te_mod trace_element)
    | None => backtrack_to
    end
  else
    match rev tr with
    | trace_element :: _ => Some (te_mod trace_element)
    | [] => backtrack_to
    end.

(** Lines 314-317: the message is appended to the list of the predictor
    unless the list has it. *)
Definition record_feedback (bt : option PredId) (msg : string)
    (feedbacks : pydict (option PredId) (list string))
    : pydict (option PredId) (list string) :=
  let (feedbacks, msgs) := dict_setdefault pred_key_eqb bt [] feedbacks in
  if existsb (String.eqb msg) msgs then feedbacks
  else dict_set pred_key_eqb bt (msgs ++ [msg]) feedbacks.

(** Lines 325-329 *)
Definition record_failure_trace (bt : option PredId) (suggest_id : Id)
    (entry : Store * Store * string)
    (traces : pydict (option PredId) FailureTraces)
    : pydict (option PredId) FailureTraces :=
  let (traces, d) := dict_setdefault pred_key_eqb bt [] traces in
  dict_set pred_key_eqb bt (dict_set Nat.eqb suggest_id entry d) traces.

(** [l[-1]] *)
Definition last_element {A} (l : list A) : option A :=
  match rev l with
  | x :: _ => Some x
  | [] => None
  end.

(** The two [pop]s on the [_store] of the prediction in the last entry of
    the list [loc]: the store is changed in place, in the trace too. *)
Definition pop_injected (op : Store) : Store :=
  dict_pop String.eqb "_assert_traces"
    (dict_pop String.eqb "_assert_feedback" op).

Definition pop_injected_in_last (loc : Loc) : M unit :=
  modify (fun w =>
    match rev (lists w loc) with
    | [] => w
    | e :: before =>
        set_lists
          (upd (lists w) loc
             (rev before
              ++ [mkTraceElement (te_mod e) (te_inputs e)
                    (pop_injected (te_outputs e))])) w
    end).

(** The body of [except DSPySuggestionError as e] (lines 297-334). *)
Definition on_suggestion_error (target_module : option Signature)
    (e_id : Id) (e_msg : string) (e_state : Loc) (l : Locals) : M Locals :=
  w <- get_world;;
  match last_element (lists w e_state) with
  | None => raise IndexError
  | Some error_state =>
      let suggest_id := e_id in
      let l := mkLocals (backtrack_to l) (Some e_msg) (result l)
                 (predictors_to_original_forward l) (predictor_feedbacks l)
                 (failure_traces l) in
      match current_trace w with
      | [] =>
          logger_error
            "UNREACHABLE: No trace available, this should not happen. Is this run time?";;;
          ret l
      | _ :: _ =>
          let bt :=
            resolve_backtrack_to target_module (predictors w)
              (current_trace w) (backtrack_to l) in
          (match bt with
           | None => logger_error "Specified module not found in trace"
           | Some _ => ret tt
           end);;;
          let feedbacks := record_feedback bt e_msg (predictor_feedbacks l) in
          let error_ip := te_inputs error_state in
          let error_op := pop_injected (te_outputs error_state) in
          pop_injected_in_last e_state;;;
          ret (mkLocals bt (Some e_msg) (result l)
                 (predictors_to_original_forward l) feedbacks
                 (record_failure_trace bt suggest_id
                    (error_ip, error_op, e_msg) (failure_traces l)))
      end
  end.

(** [d[k]] *)
Definition subscript {K V} (eqb : K -> K -> bool) (k : K) (d : pydict K V)
    : M V :=
  match dict_get eqb k d with
  | Some v => ret v
  | None => raise KeyError
  end.

(** Lines 251-285: the signature of [backtrack_to] is extended and its
    forward is wrapped. *)
Definition augment (bt : PredId) (l : Locals) : M Locals :=
  w <- get_world;;
  let saved :=
    dict_set Nat.eqb bt (forward (predictors w bt))
      (predictors_to_original_forward l) in
  _extend_predictor_signature bt injected_fields;;;
  msgs <- subscript pred_key_eqb (Some bt) (predictor_feedbacks l);;
  let feedback_msg := _build_error_msg msgs in
  traces <- subscript pred_key_eqb (Some bt) (failure_traces l);;
  let trace_passages := _build_trace_passages traces in
  _wrap_forward_with_set_fields bt
    [("_assert_feedback", PyStr feedback_msg);
     ("_assert_traces", PyStrList trace_passages)];;;
  ret (mkLocals (backtrack_to l) (error_msg l) (result l) saved
         (predictor_feedbacks l) (failure_traces l)).

(** [if i > 0 and backtrack_to is not None:] with its body *)
Definition augment_if_due (i : Z) (l : Locals) : M Locals :=
  match (0 <? i)%Z, backtrack_to l with
  | true, Some bt => augment bt l
  | _, _ => ret l
  end.

Definition set_result (r : PyVal) (l : Locals) : Locals :=
  mkLocals (backtrack_to l) (error_msg l) r (predictors_to_original_forward l)
    (predictor_feedbacks l) (failure_traces l).

(** [range(n)] *)
Definition py_range (n : Z) : list Z := map Z.of_nat (seq 0 (Z.to_nat n)).

(** The [for i in ...] loop of lines 249-334 over the indices that are left;
    a [break] ends it.  The search of lines 301-306 rebinds [i], which
    nothing reads before the next round binds it anew. *)
Fixpoint backtrack_loop (func : M PyVal) (max_backtracks : Z)
    (target_module : option Signature) (indices : list Z) (l : Locals)
    : M Locals :=
  match indices with
  | [] => ret l
  | i :: indices' =>
      l <- augment_if_due i l;;
      if (i =? max_backtracks)%Z then
        r <- bypass_suggest_handler func;;
        ret (set_result r l)
      else
        fun w =>
          match invoke func w with
          | (Ok r, w') => (Ok (set_result r l), w')
          | (Raise (DSPySuggestionError e_id e_msg e_state), w') =>
              (l <- on_suggestion_error target_module e_id e_msg e_state l;;
               backtrack_loop func max_backtracks target_module indices' l) w'
          | (Raise e, w') => (Raise e, w')
          end
  end.

(** Lines 337-340 *)
Fixpoint revert_predictors (items : pydict PredId Forward) : M unit :=
  match items with
  | [] => ret tt
  | (predictor, original) :: items' =>
      _revert_predictor_signature predictor ["feedback"];;;
      set_forward predictor original;;;
      revert_predictors items'
  end.

(** The [wrapper] that [suggest_backtrack_handler(func, max_backtracks,
    target_module=...)] returns, called. *)
Definition suggest_backtrack_handler (func : M PyVal) (max_backtracks : Z)
    (target_module : option Signature) : M PyVal :=
  l <- backtrack_loop func max_backtracks target_module
         (py_range (max_backtracks + 1)) initial_locals;;
  revert_predictors (predictors_to_original_forward l);;;
  ret (result l).

(** ** A step of a pipeline *)

(** Modelled from the spec: the steps are external ([dspy.Predict]); section
    4.3 has a step that ran [record(step, input, output)], appending an entry
    to the trace of the invocation.  The inputs recorded are the keyword
    arguments that reach the method the step was built with. *)
Definition call_predictor (p : PredId) (kws outputs : Store) : M unit :=
  w <- get_world;;
  trace_append
    (mkTraceElement p (forwarded_kwargs (forward (predictors w p)) kws) outputs).

(** ** Worlds and pipelines used in examples *)

Module Examples.

Definition plain_field : Field := mkField "" "" FormatDefault.

(** A step declared as [question -> answer]. *)
Definition qa_predictor : Predictor :=
  mkPredictor "question -> answer"
    (mkTemplate "Answer the question."
       [("question", plain_field); ("answer", plain_field)])
    original_forward.

(** A step declared as [context -> summary]: no field is named
    [question]. *)
Definition summary_predictor : Predictor :=
  mkPredictor "context -> summary"
    (mkTemplate "Summarise."
       [("context", plain_field); ("summary", plain_field)])
    original_forward.

(** Step 0 answers questions, every other step summarises. *)
Definition mixed_predictors (p : PredId) : Predictor :=
  match p with
  | 0 => qa_predictor
  | _ => summary_predictor
  end.

Definition world_with (c : Config) (preds : PredId -> Predictor) : World :=
  mkWorld c 0 (fun _ => []) preds [] 0 [] [].

(** Both flags off, an empty trace, an empty registry. *)
Definition w0 : World := world_with (mkConfig false false) mixed_predictors.

(** Every step answers questions. *)
Definition w_qa : World := world_with (mkConfig false false) (fun _ => qa_predictor).

Definition brief : Constraint :=
  mkConstraint KSuggest 0 (PyBool false) "be brief" None.
Definition cited : Constraint :=
  mkConstraint KAssert 1 (PyBool false) "cite a source" None.

(** [pred = step(question=...); dspy.Suggest(False, "be brief");
    return pred.answer] *)
Definition qa_pipeline (p : PredId) : M PyVal :=
  call_predictor p [("question", PyStr "q")] [("answer", PyStr "a")];;;
  Suggest (PyBool false) "be brief" None;;;
  ret (PyStr "a").

(** The same with the soft constraint already registered: its evaluation
    is [Suggest.__call__] on the registered object. *)
Definition soft_pipeline (p : PredId) : M PyVal :=
  call_predictor p [("question", PyStr "q")] [("answer", PyStr "a")];;;
  Suggest___call__ brief;;;
  ret (PyStr "a").

(** A soft constraint, then a hard one that fails. *)
Definition soft_then_hard_pipeline (p : PredId) : M PyVal :=
  call_predictor p [("question", PyStr "q")] [("answer", PyStr "a")];;;
  Suggest___call__ brief;;;
  Assert___call__ cited;;;
  ret (PyStr "a").

Definition entry (p : PredId) : TraceElement :=
  mkTraceElement p [("question", PyStr "q")] [("answer", PyStr "a")].

(** The world after the steps 0, 1, 0 ran: the trace [stepA, stepB,
    stepA]. *)
Definition w_aba : World :=
  set_lists (fun _ => [entry 0; entry 1; entry 0]) w0.

(** A step whose declared signature has a field named [_assert_feedback]
    ahead of [question]. *)
Definition reserved_predictor : Predictor :=
  mkPredictor "_assert_feedback, question -> answer"
    (mkTemplate "Answer the question."
       [("_assert_feedback", plain_field); ("question", plain_field);
        ("answer", plain_field)])
    original_forward.

Definition w_reserved : World :=
  world_with (mkConfig false false) (fun _ => reserved_predictor).

(** A pipeline whose soft constraint fails while its step runs as
    declared and whose hard constraint fails once the step runs with
    feedback. *)
Definition hard_once_augmented_pipeline (p : PredId) : M PyVal :=
  w <- get_world;;
  call_predictor p [("question", PyStr "q")] [("answer", PyStr "a")];;;
  (match forward (predictors w p) with
   | original_forward => Suggest___call__ brief
   | new_forward _ _ => Assert___call__ cited
   end);;;
  ret (PyStr "a").

End Examples.

(** ** Notions the properties are stated with *)

(** The trace an exception of the two assertion classes carries. *)
Definition exn_state (e : Exn) : option Loc :=
  match e with
  | DSPyAssertionError _ _ state | DSPySuggestionError _ _ state => Some state
  | _ => None
  end.

(** The error a failed evaluation raised holds its own copy of the trace:
    an entry appended afterwards does not show in it. *)
Definition violation_carries_a_copy : Prop :=
  forall (self : Constraint) (w w1 w2 : World) (e : Exn) (state : Loc)
         (x : TraceElement),
    Constraint___call__ self w = (Raise e, w1) ->
    exn_state e = Some state ->
    trace_append x w1 = (Ok tt, w2) ->
    lists w2 state = lists w1 state.

(** What holds of [Constraint._registry] however it was filled: a
    registered constraint has the message of its key, its id was handed out
    already, and no two registered constraints share an id. *)
Definition registry_wf (w : World) : Prop :=
  (forall k c, dict_get key_eqb k (registry w) = Some c ->
     c_id c < uuid_supply w /\ c_msg c = snd (fst k)) /\
  (forall k1 k2 c1 c2,
     dict_get key_eqb k1 (registry w) = Some c1 ->
     dict_get key_eqb k2 (registry w) = Some c2 ->
     c_id c1 = c_id c2 -> c1 = c2).


(** Following the spec: of two constructions with one tuple, the first
    made when the tuple is not registered and the second while the
    constraint of the first is registered, each yields a constraint with an
    id, and the ids are the same. *)
Definition second_construction_has_same_id : Prop :=
  forall (cls : Kind) (r : PyVal) (m : string) (t : option Signature)
         (w w1 w2 : World) (i1 i2 : option Constraint),
    dict_get key_eqb (r, m, t) (registry w) = None ->
    Constraint_instance cls r m t w = (Ok i1, w1) ->
    Constraint_instance cls r m t w1 = (Ok i2, w2) ->
    exists c1 c2, i1 = Some c1 /\ i2 = Some c2 /\ c_id c2 = c_id c1.

(** The messages a run records, as (step, message) pairs in the order of
    the attempts, and the store they leave. *)
Definition record_all (events : list (option PredId * string))
    (feedbacks : pydict (option PredId) (list string))
    : pydict (option PredId) (list string) :=
  fold_left (fun fb e => record_feedback (fst e) (snd e) fb) events feedbacks.


(** The messages the store holds for a step. *)
Definition feedback_of (step : option PredId)
    (feedbacks : pydict (option PredId) (list string)) : list string :=
  match dict_get pred_key_eqb step feedbacks with
  | Some msgs => msgs
  | None => []
  end.



(** The field names of the signature of a step. *)
Definition signature_keys (w : World) (p : PredId) : list string :=
  dict_keys (kwargs (extended_signature (predictors w p))).

Definition not_injected (key : string) : bool :=
  negb (String.eqb key "_assert_feedback")
  && negb (String.eqb key "_assert_traces").

(** Whenever a signature has a field [question], extending it puts the two
    new fields right after that field, feedback first. *)
Definition injected_right_after_question : Prop :=
  forall (p : PredId) (w w' : World),
    In "question" (signature_keys w p) ->
    NoDup (signature_keys w p) ->
    _extend_predictor_signature p injected_fields w = (Ok tt, w') ->
    exists pre post,
      signature_keys w' p
      = pre ++ ["question"; "_assert_feedback"; "_assert_traces"] ++ post.

(** The keys of a dictionary filled key by key: a key that is present stays
    where it is. *)
Definition add_key (keys : list string) (key : string) : list string :=
  if existsb (String.eqb key) keys then keys else keys ++ [key].


(** Every step has a field [question] in its signature. *)
Definition all_have_question (w : World) : Prop :=
  forall p, In "question" (signature_keys w p).

(** A pipeline whose soft constraint fails on every invocation: run with
    [bypass_suggest] off it raises [DSPySuggestionError] with a state that
    is not empty.  It leaves the flags and the steps as it found them. *)
Definition soft_fails_every_time (func : M PyVal) : Prop :=
  forall w, bypass_suggest (config w) = false ->
    exists e_id e_msg e_state w',
      func w = (Raise (DSPySuggestionError e_id e_msg e_state), w') /\
      lists w' e_state <> [] /\
      config w' = config w /\
      predictors w' = predictors w.

(** Nothing else fails in the pipeline: with [bypass_suggest] on it
    returns. *)
Definition completes_when_bypassed (func : M PyVal) : Prop :=
  forall w, bypass_suggest (config w) = true ->
    exists v w', func w = (Ok v, w').

(** The same two notions for a pipeline that constructs its constraints
    and so reads [Constraint._registry]: they are asked in the worlds whose
    registry satisfies [Q], which a failing run has to maintain.  The
    handler never touches the registry. *)
Definition soft_fails_while (Q : pydict RegKey Constraint -> Prop)
    (func : M PyVal) : Prop :=
  forall w, Q (registry w) -> bypass_suggest (config w) = false ->
    exists e_id e_msg e_state w',
      func w = (Raise (DSPySuggestionError e_id e_msg e_state), w') /\
      lists w' e_state <> [] /\
      config w' = config w /\
      predictors w' = predictors w /\
      Q (registry w').

Definition completes_when_bypassed_while
    (Q : pydict RegKey Constraint -> Prop) (func : M PyVal) : Prop :=
  forall w, Q (registry w) -> bypass_suggest (config w) = true ->
    exists v w', func w = (Ok v, w').

(** The registry as [Examples.qa_pipeline] needs it: the tuple of its
    suggestion is not registered, or is registered for a soft constraint. *)
Definition brief_is_soft (reg : pydict RegKey Constraint) : Prop :=
  match dict_get key_eqb (PyBool false, "be brief", None) reg with
  | Some c => c_cls c = KSuggest /\ c_result c = PyBool false
  | None => True
  end.

(** A round of the loop, with index [i], that ends in a caught soft
    violation: the step resolved before is augmented if a round went
    before, the pipeline is run once and raises [DSPySuggestionError], and
    the [except] block leaves the locals and the world the next round starts
    from. *)
Definition failed_round (func : M PyVal) (target_module : option Signature)
    (i : Z) (s s' : Locals * World) : Prop :=
  exists l1 w1 e_id e_msg e_state w2,
    augment_if_due i (fst s) (snd s) = (Ok l1, w1) /\
    invoke func w1 = (Raise (DSPySuggestionError e_id e_msg e_state), w2) /\
    on_suggestion_error target_module e_id e_msg e_state l1 w2
    = (Ok (fst s'), snd s').

(** The [r] rounds with the indices [k], [k + 1], ... one after the other,
    each ending in a caught soft violation. *)
Fixpoint failed_rounds (func : M PyVal) (target_module : option Signature)
    (k r : nat) (s s' : Locals * World) : Prop :=
  match r with
  | 0 => s' = s
  | S r' =>
      exists s1,
        failed_round func target_module (Z.of_nat k) s s1 /\
        failed_rounds func target_module (S k) r' s1 s'
  end.

(** The pipeline has a hard constraint that fails whenever soft violations
    are suppressed and hard ones are not. *)
Definition hard_fails_when_enforced (func : M PyVal) : Prop :=
  forall w, bypass_suggest (config w) = true ->
            bypass_assert (config w) = false ->
    exists e_id e_msg e_state w',
      func w = (Raise (DSPyAssertionError e_id e_msg e_state), w').

(** With [max_backtracks = N] a pipeline whose soft constraint always fails
    is run [N + 1] times and the handler returns a value. *)
Definition bounded_retry_for_every_pipeline : Prop :=
  forall (func : M PyVal) (N : Z) (target_module : option Signature)
         (w : World),
    (0 <= N)%Z ->
    bypass_suggest (config w) = false ->
    soft_fails_every_time func ->
    completes_when_bypassed func ->
    exists v w',
      suggest_backtrack_handler func N target_module w = (Ok v, w') /\
      List.length (calls w') = List.length (calls w) + Z.to_nat N + 1.

(** A caught soft violation whose target is in no trace entry is raised
    again by the handler. *)
Definition unresolved_target_is_fatal : Prop :=
  forall (func : M PyVal) (N : Z) (s : Signature) (w w1 : World)
         (e_id : Id) (e_msg : string) (e_state : Loc),
    (0 < N)%Z ->
    s <> "" ->
    func w = (Raise (DSPySuggestionError e_id e_msg e_state), w1) ->
    lists w1 e_state <> [] ->
    current_trace w1 <> [] ->
    (forall e, In e (current_trace w1) ->
               signature (predictors w1 (te_mod e)) <> s) ->
    exists w',
      suggest_backtrack_handler func N (Some s) w
      = (Raise (DSPySuggestionError e_id e_msg e_state), w').

(** What the handler needs of its locals to augment the step it resolved:
    the step has feedback and failure traces. *)
Definition locals_ok (l : Locals) : Prop :=
  forall bt, backtrack_to l = Some bt ->
    dict_get pred_key_eqb (Some bt) (predictor_feedbacks l) <> None /\
    dict_get pred_key_eqb (Some bt) (failure_traces l) <> None.


(** ** The module transformer *)

(** What [assertion_handler(func, **handler_args)] returns, called. *)
Definition Handler := M PyVal -> M PyVal.

(** A [forward] a module can hold, as far as one call of it is concerned.
    [class_forward] is the method the class of the module defines: whether
    [inspect.getcallargs] binds the arguments of the call to its parameters,
    the value bound to its parameter [bypass_assert] if it has one, and what
    the call does.  [handled_forward] is the closure [forward] of
    [handle_assert_forward], bound to the module; its parameters are
    [(self, *args, **kwargs)]. *)
Inductive Method :=
| class_forward (binds : bool) (bypass_assert_arg : option PyVal)
    (body : M PyVal)
| handled_forward (assertion_handler : Handler).

(** The attributes of a module the transformer reads and writes; an
    attribute that is not set is [None]. *)
Record ModuleObj := mkModuleObj {
  class_name : string;
  m_forward : option Method;
  m__forward : option Method
}.

(** [logger.info(s)] *)
Definition logger_info (s : string) : M unit :=
  modify (fun w => set_log (log w ++ [s]) w).

(** [assert_transform_module(module, assertion_handler, **handler_args)],
    the handler with its arguments being [assertion_handler]; the module
    returned is the module passed, with its attributes set. *)
Definition assert_transform_module (module : ModuleObj)
    (assertion_handler : Handler) : M ModuleObj :=
  match m_forward module with
  | None =>
      raise (ValueError
               "Module must have a forward method to have assertions handled.")
  | Some fwd =>
      (match m__forward module with
       | Some _ =>
           logger_info ("Module " ++ class_name module
                        ++ " already has a _forward method. Skipping...")%string
       | None => ret tt
       end);;;
      ret (mkModuleObj (class_name module)
             (Some (handled_forward assertion_handler)) (Some fwd))
  end.

Section Calls.

(** [dspy.settings.configure(bypass_assert=v)] is defined in the [dsp]
    package and is taken as given. *)
Variable configure_bypass_assert : PyVal -> M unit.

(** [inspect.getcallargs(self._forward, ...)] followed by the test on
    ["bypass_assert"] (lines 352-356); [depth] is the number of nested
    calls of [forward] the stack still has room for.  The calls
    [getcallargs] makes nest deeper than the calls of the handler and of
    [self._forward] that follow it, so a stack without room for another
    [forward] runs out in here, inside [inspect.getfullargspec], which
    catches what is raised and raises [TypeError('unsupported callable')]
    in its place. *)
Definition bind_call_args (depth : nat) (_forward : Method) : M unit :=
  match depth with
  | 0 => raise (OtherError "TypeError: unsupported callable")
  | S _ =>
      match _forward with
      | class_forward binds bypass_assert_arg _ =>
          if binds then
            match bypass_assert_arg with
            | Some v => configure_bypass_assert v
            | None => ret tt
            end
          else raise (OtherError "TypeError")
      | handled_forward _ => ret tt
      end
  end.

(** A call of the method [meth] of [module] when the stack has room for
    [depth] nested calls of [forward]; with room for none the call itself
    raises [RecursionError].  The closure of [handle_assert_forward] reads
    [self._forward] when it is called. *)
Fixpoint call_method (depth : nat) (module : ModuleObj) (meth : Method)
    : M PyVal :=
  match depth with
  | 0 => raise (OtherError "RecursionError")
  | S depth' =>
      match meth with
      | class_forward binds _ body =>
          if binds then body else raise (OtherError "TypeError")
      | handled_forward assertion_handler =>
          match m__forward module with
          | None => raise (OtherError "AttributeError")
          | Some _forward =>
              bind_call_args depth' _forward;;;
              assertion_handler (call_method depth' module _forward)
          end
      end
  end.

(** [module.forward(...)] *)
Definition call_forward (depth : nat) (module : ModuleObj) : M PyVal :=
  match m_forward module with
  | None => raise (OtherError "AttributeError")
  | Some meth => call_method depth module meth
  end.

End Calls.

(** ** Further notions the properties are stated with *)

(** What an evaluation logs for a failure. *)
Definition failure_line (self : Constraint) : string :=
  match c_cls self with
  | KAssert => ("AssertionError: " ++ c_msg self)%string
  | KSuggest => ("SuggestionFailed: " ++ c_msg self)%string
  end.

(** [isinstance(v, bool)] *)
Definition is_py_bool (v : PyVal) : bool :=
  match v with PyBool _ => true | _ => false end.

Definition is_suggestion_error (e : Exn) : bool :=
  match e with DSPySuggestionError _ _ _ => true | _ => false end.

Definition is_assertion_error (e : Exn) : bool :=
  match e with DSPyAssertionError _ _ _ => true | _ => false end.

(** The default a forward supplies for an argument: the outermost wrapper
    that has one decides. *)
Fixpoint wrapper_default (key : string) (fwd : Forward) : option PyVal :=
  match fwd with
  | original_forward => None
  | new_forward default_args wrapped =>
      match dict_get String.eqb key default_args with
      | Some v => Some v
      | None => wrapper_default key wrapped
      end
  end.

(** The failures a run records, as (step, (suggestion id, entry)) in the
    order of the attempts, and the store they leave. *)
Definition record_failures
    (events : list (option PredId * (Id * (Store * Store * string))))
    (traces : pydict (option PredId) FailureTraces)
    : pydict (option PredId) FailureTraces :=
  fold_left
    (fun ft e => record_failure_trace (fst e) (fst (snd e)) (snd (snd e)) ft)
    events traces.

Definition failures_for (step : option PredId)
    (events : list (option PredId * (Id * (Store * Store * string))))
    : list (Id * (Store * Store * string)) :=
  map snd (filter (fun e => pred_key_eqb (fst e) step) events).

Definition failure_traces_of (bt : option PredId)
    (traces : pydict (option PredId) FailureTraces) : FailureTraces :=
  match dict_get pred_key_eqb bt traces with
  | Some d => d
  | None => []
  end.

(** The distinct ids of a list, each where it first occurs. *)
Fixpoint first_ids (ids : list Id) : list Id :=
  match ids with
  | [] => []
  | i :: ids' => i :: filter (fun x => negb (Nat.eqb x i)) (first_ids ids')
  end.

(** The last entry recorded for an id. *)
Definition latest_entry (suggest_id : Id)
    (events : list (Id * (Store * Store * string)))
    : option (Store * Store * string) :=
  option_map snd (find (fun e => Nat.eqb (fst e) suggest_id) (rev events)).

(** The passage [_build_trace_passages] renders for an entry. *)
Definition passage (entry : Store * Store * string) : string :=
  let '(_, op, msg) := entry in
  ("Failed Instruction: " ++ msg ++ " | Output: " ++ repr_store op)%string.

(** A handler that runs its pipeline at least once before it returns:
    when every run of the pipeline raises [e], so does the handler. *)
Definition runs_pipeline (handler : Handler) (e : Exn) : Prop :=
  forall func : M PyVal,
    (forall w, exists w', func w = (Raise e, w')) ->
    forall w, exists w', handler func w = (Raise e, w').


(** A computation that leaves a component of the world as it found it,
    whether it returns or raises. *)
Definition keeps {A B : Type} (proj : World -> B) (m : M A) : Prop :=
  forall w, proj (snd (m w)) = proj w.


(** * Properties *)

(** ** Dictionaries *)

Section PyDictFacts.
Variables K V : Type.
Variable eqb : K -> K -> bool.
Hypothesis eqb_refl : forall k, eqb k k = true.

Lemma dict_get_set_same (k : K) (v : V) (d : pydict K V) :
  dict_get eqb k (dict_set eqb k v d) = Some v.
Proof.
  induction d as [|[k' v'] d IH]; simpl.
  - now rewrite eqb_refl.
  - destruct (eqb k k') eqn:E; simpl; rewrite E; auto.
Qed.

Lemma dict_get_set_inv (k k' : K) (v c : V) (d : pydict K V) :
  dict_get eqb k' (dict_set eqb k v d) = Some c ->
  dict_get eqb k' d = Some c \/ (c = v /\ exists k0, eqb k k0 = true /\ eqb k' k0 = true).
Proof.
  induction d as [|[k0 v0] d IH]; simpl.
  - destruct (eqb k' k) eqn:E; [|discriminate].
    intros [= <-]. right. split; [reflexivity|]. exists k. auto.
  - destruct (eqb k k0) eqn:E; simpl.
    + destruct (eqb k' k0) eqn:E'; auto.
      intros [= <-]. right. split; [reflexivity|]. exists k0. auto.
    + destruct (eqb k' k0) eqn:E'; auto.
Qed.

Lemma dict_get_set_absent (k k' : K) (v c : V) (d : pydict K V) :
dict_get eqb k d = None ->
dict_get eqb k' d = Some c ->
dict_get eqb k' (dict_set eqb k v d) = Some c.
Proof.
induction d as [|[k0 v0] d IH]; simpl; [discriminate|].
destruct (eqb k k0) eqn:E; [discriminate|]. simpl.
destruct (eqb k' k0); auto.
Qed.
End PyDictFacts.

Section PyDictEq.
Variables K V : Type.
Variable eqb : K -> K -> bool.
Hypothesis eqb_eq : forall a b, eqb a b = true <-> a = b.

Lemma eqb_eq_refl (k : K) : eqb k k = true.
Proof. now apply eqb_eq. Qed.

Lemma eqb_neq (a b : K) : a <> b -> eqb a b = false.
Proof.
  intros H. destruct (eqb a b) eqn:E; [|reflexivity].
  apply eqb_eq in E. contradiction.
Qed.

Lemma dict_get_set_other (k k' : K) (v : V) (d : pydict K V) :
  k' <> k -> dict_get eqb k' (dict_set eqb k v d) = dict_get eqb k' d.
Proof.
  intros Hne. induction d as [|[k0 v0] d IH]; simpl.
  - now rewrite (eqb_neq Hne).
  - destruct (eqb k k0) eqn:E; simpl.
    + apply eqb_eq in E. subst k0. now rewrite (eqb_neq Hne).
    + now rewrite IH.
Qed.

Lemma dict_get_In (k : K) (d : pydict K V) :
  In k (dict_keys d) <-> dict_get eqb k d <> None.
Proof.
  induction d as [|[k0 v0] d IH]; simpl.
  - split; [tauto | congruence].
  - destruct (eqb k k0) eqn:E.
    + apply eqb_eq in E. subst. split; [discriminate | auto].
    + rewrite <- IH. split; [|tauto].
      intros [->|H]; [|exact H].
      rewrite eqb_eq_refl in E. discriminate.
Qed.

Lemma dict_keys_set (k : K) (v : V) (d : pydict K V) :
  dict_keys (dict_set eqb k v d) =
  if dict_mem eqb k d then dict_keys d else dict_keys d ++ [k].
Proof.
  unfold dict_mem.
  induction d as [|[k0 v0] d IH]; simpl; [reflexivity|].
  destruct (eqb k k0) eqn:E; simpl; [reflexivity|].
  rewrite IH. now destruct (dict_get eqb k d).
Qed.

Lemma dict_keys_pop_other (k k' : K) (d : pydict K V) :
  k' <> k -> In k' (dict_keys d) -> In k' (dict_keys (dict_pop eqb k d)).
Proof.
  intros Hne. induction d as [|[k0 v0] d IH]; simpl; [tauto|].
  destruct (eqb k k0) eqn:E; simpl.
  - apply eqb_eq in E. subst k0. intros [H|H]; [congruence | exact H].
  - intros [H|H]; auto.
Qed.
End PyDictEq.

Lemma pred_key_eqb_eq (a b : option PredId) : pred_key_eqb a b = true <-> a = b.
Proof.
  destruct a as [a|], b as [b|]; simpl; try (split; congruence).
  rewrite Nat.eqb_eq. split; congruence.
Qed.

Lemma py_eqb_refl (v : PyVal) : py_eqb v v = true.
Proof.
  destruct v as [|b|z|s|l]; simpl; auto.
  - now destruct b.
  - apply Z.eqb_refl.
  - apply String.eqb_refl.
  - now destruct (list_eq_dec string_dec l l).
Qed.

Lemma key_eqb_refl (k : RegKey) : key_eqb k k = true.
Proof.
  destruct k as [[r m] t]. simpl.
  rewrite py_eqb_refl, String.eqb_refl. simpl.
  destruct t; simpl; auto using String.eqb_refl.
Qed.

Lemma key_eqb_msg (r r' : PyVal) (m m' : string) (t t' : option Signature) :
  key_eqb (r, m, t) (r', m', t') = true -> m = m'.
Proof.
  simpl. intros H.
  apply andb_prop in H as [H _]. apply andb_prop in H as [_ H].
  now apply String.eqb_eq.
Qed.

(** ** Evaluation of constraints *)

(** The flag alone decides: no third outcome exists for a [False] result. *)
Lemma Assert_call_false_cases (self : Constraint) (w : World) :
  c_result self = PyBool false ->
  Assert___call__ self w =
  (if bypass_assert (config w) then Ok true
   else Raise (DSPyAssertionError (c_id self) (c_msg self) (trace w)),
   set_log (log w ++ [("AssertionError: " ++ c_msg self)%string]) w).
Proof.
  intros H. unfold Assert___call__, bind, get_world, logger_error, modify, ret, raise.
  rewrite H. now destruct (bypass_assert (config w)).
Qed.

(** C8: a hard constraint whose result is [False] is evaluated as follows.
    With [bypass_assert] set, the failure is logged and [True] is returned,
    nothing is raised.  With the flag unset, the failure is logged and
    [DSPyAssertionError] is raised with the id and the message of the
    constraint and, as its state, the trace, which reads as the trace of
    that moment. *)
Theorem Assert_call_false (cls : Kind) (id : Id) (msg : string)
    (target_module : option Signature) (w : World) :
  Assert___call__ (mkConstraint cls id (PyBool false) msg target_module) w =
  (if bypass_assert (config w) then Ok true
   else Raise (DSPyAssertionError id msg (trace w)),
   set_log (log w ++ [("AssertionError: " ++ msg)%string]) w)
  /\ lists (snd (Assert___call__
                   (mkConstraint cls id (PyBool false) msg target_module) w))
       (trace w) = current_trace w.
Proof.
  rewrite Assert_call_false_cases by reflexivity. split; reflexivity.
Qed.

Lemma Suggest_call_false_cases (self : Constraint) (w : World) :
  c_result self = PyBool false ->
  Suggest___call__ self w =
  (if bypass_suggest (config w) then Ok true
   else Raise (DSPySuggestionError (c_id self) (c_msg self) (trace w)),
   set_log (log w ++ [("SuggestionFailed: " ++ c_msg self)%string]) w).
Proof.
  intros H. unfold Suggest___call__, bind, get_world, logger_error, modify, ret, raise.
  rewrite H. now destruct (bypass_suggest (config w)).
Qed.

(** An evaluation that raises one of the two assertion errors raises it with
    [dsp.settings.trace] itself and leaves trace and lists as they were. *)
Lemma call_raises_with_trace (self : Constraint) (w w1 : World) (e : Exn)
    (state : Loc) :
  Constraint___call__ self w = (Raise e, w1) ->
  exn_state e = Some state ->
  state = trace w /\ trace w1 = trace w /\ lists w1 = lists w.
Proof.
  unfold Constraint___call__, Assert___call__, Suggest___call__,
    bind, get_world, logger_error, modify, ret, raise.
  destruct (c_cls self), (c_result self) as [| [|] | | |]; simpl;
    try discriminate;
    try (intros [= <- <-]; discriminate).
  - destruct (bypass_assert (config w)); simpl; [discriminate|].
    intros [= <- <-]. simpl. intros [= <-]. auto.
  - destruct (bypass_suggest (config w)); simpl; [discriminate|].
    intros [= <- <-]. simpl. intros [= <-]. auto.
Qed.

(** C4, as the code has it: the state of a raised [DSPyAssertionError] or
    [DSPySuggestionError] is the list object [dsp.settings.trace] itself.
    Read when the error is raised it is the trace of that moment; an entry
    appended to the trace afterwards shows in the state of the error. *)
Theorem violation_state_is_live_trace (self : Constraint) (w w1 : World)
    (e : Exn) (state : Loc) :
  Constraint___call__ self w = (Raise e, w1) ->
  exn_state e = Some state ->
  state = trace w /\
  lists w1 state = current_trace w /\
  forall (x : TraceElement) (w2 : World),
    trace_append x w1 = (Ok tt, w2) ->
    lists w2 state = current_trace w ++ [x].
Proof.
  intros Hcall Hstate.
  destruct (call_raises_with_trace _ _ Hcall Hstate) as (-> & Htr & Hl).
  split; [reflexivity|]. split.
  - unfold current_trace. now rewrite Hl.
  - intros x w2. unfold trace_append, modify, current_trace.
    intros [= <-]. simpl. unfold upd.
    rewrite Htr, Nat.eqb_refl. now rewrite Hl.
Qed.

Lemma violation_state_is_live_trace_witness :
  lists (snd (trace_append (Examples.entry 0)
                (set_log ["SuggestionFailed: be brief"] Examples.w0))) 0
  = current_trace Examples.w0 ++ [Examples.entry 0].
Proof.
  exact (proj2 (proj2
    (@violation_state_is_live_trace Examples.brief Examples.w0
       (set_log ["SuggestionFailed: be brief"] Examples.w0)
       (DSPySuggestionError 0 "be brief" 0) 0 eq_refl eq_refl))
    (Examples.entry 0) _ eq_refl).
Defined.

(** C4 as the spec words it fails: the error raised by a soft constraint on
    an empty trace shows the entry appended after it was raised. *)
Lemma violation_carries_a_copy_counterexample : ~ violation_carries_a_copy.
Proof.
  intros H.
  specialize (H Examples.brief Examples.w0
                (set_log ["SuggestionFailed: be brief"] Examples.w0)
                _ (DSPySuggestionError 0 "be brief" 0) 0 (Examples.entry 0)
                eq_refl eq_refl eq_refl).
  vm_compute in H. discriminate H.
Qed.

(** ** The registry of constraints *)

Lemma call_keeps_registry (self : Constraint) (w : World) :
  registry (snd (Constraint___call__ self w)) = registry w /\
  uuid_supply (snd (Constraint___call__ self w)) = uuid_supply w.
Proof.
  unfold Constraint___call__, Assert___call__, Suggest___call__, bind,
    get_world, logger_error, modify, ret, raise.
  destruct (c_cls self), (c_result self) as [| [|] | | |]; simpl; auto;
    [destruct (bypass_assert (config w)) | destruct (bypass_suggest (config w))];
    simpl; auto.
Qed.

Lemma Constraint_self_unhashable (cls : Kind) (r : PyVal) (m : string)
    (t : option Signature) (w : World) :
  hashable r = false ->
  Constraint_self cls r m t w
  = (Raise (OtherError "TypeError: unhashable type: 'list'"), w).
Proof. intros H. unfold Constraint_self. now rewrite H. Qed.

Lemma Constraint_self_registered (cls : Kind) (r : PyVal) (m : string)
    (t : option Signature) (w : World) (c : Constraint) :
  hashable r = true ->
  dict_get key_eqb (r, m, t) (registry w) = Some c ->
  Constraint_self cls r m t w = (Ok (c, None), w).
Proof.
  intros Hh H. unfold Constraint_self, bind, get_world. now rewrite Hh, H.
Qed.

Lemma Constraint_self_fresh (cls : Kind) (r : PyVal) (m : string)
    (t : option Signature) (w : World) :
  hashable r = true ->
  dict_get key_eqb (r, m, t) (registry w) = None ->
  Constraint_self cls r m t w =
  (Ok (mkConstraint cls (uuid_supply w) r m t,
       Some (mkConstraint cls (uuid_supply w) r m t)),
   set_registry
     (dict_set key_eqb (r, m, t) (mkConstraint cls (uuid_supply w) r m t)
        (registry w))
     (set_uuid_supply (S (uuid_supply w)) w)).
Proof.
  intros Hh H. unfold Constraint_self, bind, get_world. now rewrite Hh, H.
Qed.

Lemma registry_wf_empty (w : World) : registry w = [] -> registry_wf w.
Proof.
  intros H. split; intros *; rewrite H; discriminate.
Qed.

(** A construction with a hashable result registers its constraint and
    keeps the registry well formed. *)
Lemma Constraint_self_wf (cls : Kind) (r : PyVal) (m : string)
    (t : option Signature) (w : World) :
  hashable r = true ->
  registry_wf w ->
  exists c i w1,
    Constraint_self cls r m t w = (Ok (c, i), w1) /\
    dict_get key_eqb (r, m, t) (registry w1) = Some c /\
    c_msg c = m /\
    registry_wf w1.
Proof.
  intros Hh [Hlt Hinj].
  destruct (dict_get key_eqb (r, m, t) (registry w)) as [c|] eqn:E.
  - exists c, None, w. rewrite (Constraint_self_registered cls _ _ _ _ Hh E).
    destruct (Hlt _ _ E) as [_ Hc].
    split; [reflexivity|]. split; [exact E|]. split; [exact Hc|].
    split; assumption.
  - eexists _, _, _. rewrite (Constraint_self_fresh cls _ _ _ _ Hh E).
    split; [reflexivity|]. simpl.
    split; [apply dict_get_set_same, key_eqb_refl|].
    split; [reflexivity|].
    split; simpl.
    + intros [[r' m'] t'] c H.
      apply (dict_get_set_inv key_eqb key_eqb_refl) in H as [H|[-> (k0 & H1 & H2)]].
      * destruct (Hlt _ _ H). split; [lia | assumption].
      * simpl. split; [lia|].
        destruct k0 as [[r0 m0] t0].
        apply key_eqb_msg in H1, H2. congruence.
    + intros k1 k2 c1 c2 H1 H2 Hid.
      apply (dict_get_set_inv key_eqb key_eqb_refl) in H1 as [H1|[-> _]];
        apply (dict_get_set_inv key_eqb key_eqb_refl) in H2 as [H2|[-> _]]; auto.
      * eapply Hinj; eauto.
      * destruct (Hlt _ _ H1) as [Hc _]. simpl in Hid. lia.
      * destruct (Hlt _ _ H2) as [Hc _]. simpl in Hid. lia.
Qed.

(** A construction keeps what is registered. *)
Lemma Constraint_self_keeps (cls : Kind) (r : PyVal) (m : string)
    (t : option Signature) (w w1 : World) (b : Constraint * option Constraint)
    (k : RegKey) (c0 : Constraint) :
  Constraint_self cls r m t w = (Ok b, w1) ->
  dict_get key_eqb k (registry w) = Some c0 ->
  dict_get key_eqb k (registry w1) = Some c0.
Proof.
  intros Hrun Hk.
  destruct (hashable r) eqn:Hh.
  2:{ rewrite (Constraint_self_unhashable cls _ _ _ _ Hh) in Hrun.
      discriminate Hrun. }
  destruct (dict_get key_eqb (r, m, t) (registry w)) as [c'|] eqn:E.
  - rewrite (Constraint_self_registered cls _ _ _ _ Hh E) in Hrun.
    now injection Hrun as <- <-.
  - rewrite (Constraint_self_fresh cls _ _ _ _ Hh E) in Hrun.
    injection Hrun as <- <-. simpl.
    now apply dict_get_set_absent.
Qed.

(** What the two readings of a construction do once [self] is bound. *)
Lemma construction_after_self (cls : Kind) (r : PyVal) (m : string)
    (t : option Signature) (w w1 : World) (c : Constraint)
    (i : option Constraint) :
  Constraint_self cls r m t w = (Ok (c, i), w1) ->
  Constraint_instance cls r m t w = (Constraint___call__ c;;; ret i) w1 /\
  Constraint___init__ cls r m t w = (Constraint___call__ c;;; ret tt) w1.
Proof.
  intros H. unfold Constraint_instance, Constraint___init__.
  split.
  - unfold bind at 1. now rewrite H.
  - unfold bind at 1. now rewrite H.
Qed.

(** C2, as the code has it.  A construction whose result can be hashed
    evaluates the constraint [c1] that is registered for its tuple once
    [self] is bound; when the tuple was not registered, [c1] is the
    instance it yields, with a fresh id.  A second construction with the same tuple, made while
    [c1] is registered, evaluates [c1] again, so that a violation it raises
    carries the id of [c1], and draws no id; but the instance it yields has
    no attribute, and so no id at all: [self] was rebound, and the
    constructor returns the instance it was given.  A construction with
    another message evaluates a constraint with another id. *)
Theorem second_construction_has_no_id (cls1 cls2 : Kind) (r : PyVal)
    (m m' : string) (t : option Signature) (w : World) :
  registry_wf w ->
  hashable r = true ->
  m' <> m ->
  exists c1 i1 w1,
    Constraint_instance cls1 r m t w = (Constraint___call__ c1;;; ret i1) w1 /\
    (dict_get key_eqb (r, m, t) (registry w) = None ->
     i1 = Some c1 /\ c_id c1 = uuid_supply w) /\
    registry_wf w1 /\
    dict_get key_eqb (r, m, t) (registry w1) = Some c1 /\
    forall w',
      registry_wf w' ->
      dict_get key_eqb (r, m, t) (registry w') = Some c1 ->
      Constraint_instance cls2 r m t w'
      = (Constraint___call__ c1;;; ret None) w' /\
      Constraint___init__ cls2 r m t w'
      = (Constraint___call__ c1;;; ret tt) w' /\
      (forall i2 w2,
         Constraint_instance cls2 r m t w' = (Ok i2, w2) ->
         i2 = None /\ uuid_supply w2 = uuid_supply w' /\
         registry w2 = registry w') /\
      exists c2 i2 w2,
        Constraint_instance cls2 r m' t w'
        = (Constraint___call__ c2;;; ret i2) w2 /\
        c_id c2 <> c_id c1.
Proof.
  intros Hwf Hh Hm.
  destruct (Constraint_self_wf cls1 r m t Hh Hwf)
    as (c1 & i1 & w1 & H1 & Hreg & Hmsg & Hwf1).
  exists c1, i1, w1.
  split; [exact (proj1 (construction_after_self _ _ _ _ _ H1))|].
  split.
  { intros Hnone. rewrite (@Constraint_self_fresh cls1 r m t w Hh Hnone) in H1.
    injection H1 as <- <- _. auto. }
  split; [exact Hwf1|]. split; [exact Hreg|].
  intros w' Hwf' Hlive.
  pose proof (Constraint_self_registered cls2 _ _ _ _ Hh Hlive) as Hsame.
  destruct (construction_after_self _ _ _ _ _ Hsame) as [Hinst Hinit].
  split; [exact Hinst|]. split; [exact Hinit|]. split.
  - intros i2 w2. rewrite Hinst. unfold bind, ret.
    pose proof (call_keeps_registry c1 w') as [Hr Hu].
    destruct (Constraint___call__ c1 w') as [[b|e] w3]; simpl in Hr, Hu;
      [|discriminate].
    intros [= <- <-]. auto.
  - destruct (Constraint_self_wf cls2 r m' t Hh Hwf')
      as (c2 & i2 & w2 & H2 & Hreg2 & Hmsg2 & Hwf2).
    exists c2, i2, w2.
    split; [exact (proj1 (construction_after_self _ _ _ _ _ H2))|].
    intros Hid.
    pose proof (@Constraint_self_keeps cls2 r m' t w' w2 _ _ c1 H2 Hlive)
      as Hlive2.
    destruct Hwf' as [Hlt' _]. destruct (Hlt' _ _ Hlive) as [_ Hmsg1].
    destruct Hwf2 as [_ Hinj].
    assert (c2 = c1) by (eapply Hinj; eauto).
    simpl in Hmsg1. congruence.
Qed.

Lemma second_construction_has_no_id_witness :
  exists c1 i1 w1,
    Constraint_instance KSuggest (PyBool true) "be brief" None Examples.w0
    = (Constraint___call__ c1;;; ret i1) w1 /\
    (dict_get key_eqb (PyBool true, "be brief", None) (registry Examples.w0)
     = None ->
     i1 = Some c1 /\ c_id c1 = uuid_supply Examples.w0) /\
    registry_wf w1 /\
    dict_get key_eqb (PyBool true, "be brief", None) (registry w1) = Some c1 /\
    forall w',
      registry_wf w' ->
      dict_get key_eqb (PyBool true, "be brief", None) (registry w') = Some c1 ->
      Constraint_instance KSuggest (PyBool true) "be brief" None w'
      = (Constraint___call__ c1;;; ret None) w' /\
      Constraint___init__ KSuggest (PyBool true) "be brief" None w'
      = (Constraint___call__ c1;;; ret tt) w' /\
      (forall i2 w2,
         Constraint_instance KSuggest (PyBool true) "be brief" None w'
         = (Ok i2, w2) ->
         i2 = None /\ uuid_supply w2 = uuid_supply w' /\
         registry w2 = registry w') /\
      exists c2 i2 w2,
        Constraint_instance KSuggest (PyBool true) "be concise" None w'
        = (Constraint___call__ c2;;; ret i2) w2 /\
        c_id c2 <> c_id c1.
Proof.
  apply (@second_construction_has_no_id KSuggest KSuggest (PyBool true)
           "be brief" "be concise" None Examples.w0).
  - apply registry_wf_empty. reflexivity.
  - reflexivity.
  - discriminate.
Defined.

(** C2 as the spec words it fails: [Suggest(True, "be brief")] evaluated
    twice yields first an instance with the id 0 and then an instance
    without attributes. *)
Lemma second_construction_has_same_id_counterexample :
  ~ second_construction_has_same_id.
Proof.
  intros H.
  destruct (H KSuggest (PyBool true) "be brief" None Examples.w0
              _ _ _ _ eq_refl eq_refl eq_refl) as (c1 & c2 & _ & H2 & _).
  vm_compute in H2. discriminate H2.
Qed.

(** The two constructions of the counterexample, evaluated. *)
Example Suggest_twice_instances :
  exists w1 w2,
    Constraint_instance KSuggest (PyBool true) "be brief" None Examples.w0
    = (Ok (Some (mkConstraint KSuggest 0 (PyBool true) "be brief" None)), w1) /\
    Constraint_instance KSuggest (PyBool true) "be brief" None w1
    = (Ok None, w2) /\
    uuid_supply w2 = 1 /\
    registry w2
    = [((PyBool true, "be brief", None),
        mkConstraint KSuggest 0 (PyBool true) "be brief" None)].
Proof. eexists _, _. repeat split. Qed.

(** A result that is a list cannot be hashed: the construction raises
    [TypeError], and nothing is registered or evaluated. *)
Example list_result_raises_TypeError :
  Suggest (PyStrList ["a"]) "be brief" None Examples.w0
  = (Raise (OtherError "TypeError: unhashable type: 'list'"), Examples.w0).
Proof. reflexivity. Qed.

(** Two soft constraints with one tuple, failing one after the other, raise
    errors with one id. *)
Example Suggest_twice_same_id :
  exists w1 w2,
    Suggest (PyBool false) "be brief" None Examples.w0
    = (Raise (DSPySuggestionError 0 "be brief" 0), w1) /\
    Suggest (PyBool false) "be brief" None w1
    = (Raise (DSPySuggestionError 0 "be brief" 0), w2) /\
    uuid_supply w2 = uuid_supply w1.
Proof. eexists _, _. repeat split. Qed.

(** The registry is shared by the two classes and [self.__call__()] runs the
    method of the registered object: a hard constraint constructed with the
    tuple of a registered soft one is evaluated as that soft constraint. *)
Example Assert_after_Suggest_is_soft :
  exists w1 w2,
    context (fun _ => mkConfig false true)
      (Suggest (PyBool false) "be brief" None) Examples.w0 = (Ok tt, w1) /\
    Assert (PyBool false) "be brief" None w1
    = (Raise (DSPySuggestionError 0 "be brief" 0), w2).
Proof. eexists _, _. split; reflexivity. Qed.

(** ** The feedback store *)










(** The store of a run belongs to the handler: a caught error records its
    message with [record_feedback] and nothing else writes the store. *)
Example feedback_two_attempts :
  _build_error_msg
    (feedback_of (Some 0)
       (record_all [(Some 0, "be brief"); (Some 1, "no jargon");
                    (Some 0, "cite a source"); (Some 0, "be brief")] []))
  = ("be brief" ++ newline ++ "cite a source")%string.
Proof. reflexivity. Qed.

(** ** Resolution of the step to backtrack to *)

Lemma find_app_none {A} (f : A -> bool) (l1 l2 : list A) :
  (forall x, In x l1 -> f x = false) ->
  find f (l1 ++ l2) = find f l2.
Proof.
  induction l1 as [|a l1 IH]; simpl; intros H; [reflexivity|].
  rewrite (H a) by auto. apply IH. auto.
Qed.



Lemma resolve_no_match (s : Signature) (preds : PredId -> Predictor)
    (tr : list TraceElement) (prev : option PredId) :
  s <> "" ->
  (forall e, In e tr -> signature (preds (te_mod e)) <> s) ->
  resolve_backtrack_to (Some s) preds tr prev = prev.
Proof.
  intros Hs H. unfold resolve_backtrack_to, truthy.
  apply String.eqb_neq in Hs. rewrite Hs. simpl.
  rewrite <- (app_nil_r (rev tr)), find_app_none; [reflexivity|].
  intros x Hx. apply in_rev in Hx. apply H in Hx. now apply String.eqb_neq.
Qed.

Lemma last_element_nonempty {A} (l : list A) :
  l <> [] -> exists x, last_element l = Some x.
Proof.
  destruct l as [|a l] using rev_ind; [congruence|].
  intros _. exists a. unfold last_element. now rewrite rev_app_distr.
Qed.

(** What catching a [DSPySuggestionError] does when its state and the trace
    are not empty: it cannot raise, and [backtrack_to] becomes what
    [resolve_backtrack_to] finds in the trace. *)
Lemma on_suggestion_error_resolves (target_module : option Signature)
    (e_id : Id) (e_msg : string) (e_state : Loc) (l : Locals) (w : World) :
  lists w e_state <> [] ->
  current_trace w <> [] ->
  exists error_state w',
    last_element (lists w e_state) = Some error_state /\
    let bt := resolve_backtrack_to target_module (predictors w)
                (current_trace w) (backtrack_to l) in
    on_suggestion_error target_module e_id e_msg e_state l w =
    (Ok (mkLocals bt (Some e_msg) (result l)
           (predictors_to_original_forward l)
           (record_feedback bt e_msg (predictor_feedbacks l))
           (record_failure_trace bt e_id
              (te_inputs error_state, pop_injected (te_outputs error_state),
               e_msg)
              (failure_traces l))),
     w') /\
    config w' = config w /\ predictors w' = predictors w /\
    calls w' = calls w /\ trace w' = trace w /\
    log w' = log w ++ match bt with
                      | None => ["Specified module not found in trace"]
                      | Some _ => []
                      end.
Proof.
  intros Hst Htr.
  destruct (last_element_nonempty Hst) as [error_state Hlast].
  exists error_state.
  unfold on_suggestion_error, bind, get_world. rewrite Hlast.
  destruct (current_trace w) as [|x tr] eqn:E; [congruence|].
  set (bt := resolve_backtrack_to _ _ _ _).
  unfold pop_injected_in_last, logger_error, modify, ret.
  destruct bt; simpl.
  - eexists. split; [reflexivity|]. split; [reflexivity|].
    destruct (rev (lists w e_state)); simpl; rewrite ?app_nil_r; auto 10.
  - eexists. split; [reflexivity|]. split; [reflexivity|].
    destruct (rev (lists w e_state)); simpl; auto 10.
Qed.



(** The trace [stepA, stepB, stepA]: without a target the handler
    backtracks to step A, with the signature of step B as the target to
    step B, though step A ran after it. *)
Example resolution_on_ABA :
  (exists l' w',
     on_suggestion_error None 0 "be brief" 0 initial_locals Examples.w_aba
     = (Ok l', w') /\ backtrack_to l' = Some 0) /\
  (exists l' w',
     on_suggestion_error (Some "context -> summary") 0 "be brief" 0
       initial_locals Examples.w_aba
     = (Ok l', w') /\ backtrack_to l' = Some 1).
Proof. split; eexists _, _; (split; [cbv; reflexivity | reflexivity]). Qed.

(** ** Extension of a signature *)

Lemma list_index_None (x : string) (l : list string) :
  ~ In x l -> list_index x l = None.
Proof.
  induction l as [|y l IH]; simpl; [reflexivity|].
  intros H. destruct (String.eqb y x) eqn:E.
  - apply String.eqb_eq in E. tauto.
  - rewrite IH; tauto.
Qed.

Lemma list_index_app (x : string) (pre post : list string) :
  ~ In x pre -> list_index x (pre ++ x :: post) = Some (List.length pre).
Proof.
  induction pre as [|y pre IH]; simpl; intros H.
  - now rewrite String.eqb_refl.
  - destruct (String.eqb y x) eqn:E.
    + apply String.eqb_eq in E. tauto.
    + rewrite IH; tauto.
Qed.

Lemma list_insert_app {A} (x : A) (a b : list A) :
  list_insert (List.length a) x (a ++ b) = a ++ x :: b.
Proof.
  unfold list_insert.
  rewrite firstn_app, skipn_app, Nat.sub_diag, firstn_all, skipn_all.
  simpl. now rewrite app_nil_r.
Qed.

Lemma dict_mem_existsb {V} (k : string) (d : pydict string V) :
  dict_mem String.eqb k d = existsb (String.eqb k) (dict_keys d).
Proof.
  unfold dict_mem. induction d as [|[k0 v0] d IH]; simpl; [reflexivity|].
  destruct (String.eqb k k0); simpl; auto.
Qed.

Lemma dict_comprehension_keys (keys : list string)
    (value : string -> option Field) (acc : pydict string Field) :
  (forall k, In k keys -> value k <> None) ->
  dict_keys (dict_comprehension keys value acc)
  = fold_left add_key keys (dict_keys acc).
Proof.
  revert acc. induction keys as [|key keys IH]; simpl; intros acc H;
    [reflexivity|].
  destruct (value key) as [f|] eqn:E; [|now destruct (H key); auto].
  rewrite IH by auto. f_equal.
  rewrite dict_keys_set, dict_mem_existsb.
  reflexivity.
Qed.

Lemma dict_comprehension_get (keys : list string)
    (value : string -> option Field) (acc : pydict string Field) (k : string) :
  (forall k, In k keys -> value k <> None) ->
  dict_get String.eqb k (dict_comprehension keys value acc)
  = if existsb (String.eqb k) keys then value k
    else dict_get String.eqb k acc.
Proof.
  revert acc. induction keys as [|key keys IH]; simpl; intros acc H;
    [reflexivity|].
  destruct (value key) as [f|] eqn:E; [|now destruct (H key); auto].
  rewrite IH by auto.
  destruct (existsb (String.eqb k) keys); [now rewrite orb_true_r|].
  rewrite orb_false_r. destruct (String.eqb k key) eqn:Ek.
  - apply String.eqb_eq in Ek. subst k. rewrite E.
    apply dict_get_set_same, String.eqb_refl.
  - apply (@dict_get_set_other _ _ String.eqb String.eqb_eq).
    now apply String.eqb_neq.
Qed.

Lemma existsb_eqb_In (k : string) (l : list string) :
  existsb (String.eqb k) l = true <-> In k l.
Proof.
  rewrite existsb_exists. split.
  - intros (x & Hx & E). apply String.eqb_eq in E. now subst.
  - intros H. exists k. split; [exact H | apply String.eqb_refl].
Qed.

Lemma existsb_eqb_notIn (k : string) (l : list string) :
  existsb (String.eqb k) l = false <-> ~ In k l.
Proof.
  rewrite <- existsb_eqb_In. now destruct (existsb (String.eqb k) l).
Qed.

(** Filling a dictionary with keys that do not repeat: those already there
    are skipped, the others follow in their order. *)
Lemma fold_add_key_NoDup (l acc : list string) :
  NoDup l ->
  fold_left add_key l acc
  = acc ++ filter (fun k => negb (existsb (String.eqb k) acc)) l.
Proof.
  revert acc. induction l as [|a l IH]; simpl; intros acc Hnd.
  - now rewrite app_nil_r.
  - inversion Hnd as [|? ? Ha Hl]; subst.
    rewrite IH by assumption. unfold add_key.
    destruct (existsb (String.eqb a) acc) eqn:E; simpl; [reflexivity|].
    rewrite <- app_assoc. simpl. do 2 f_equal.
    apply filter_ext_in. intros k Hk.
    rewrite existsb_app. simpl. rewrite orb_false_r.
    assert (String.eqb k a = false) as ->.
    { apply String.eqb_neq. intros ->. contradiction. }
    now rewrite orb_false_r.
Qed.

Lemma filter_true {A} (l : list A) : filter (fun _ => true) l = l.
Proof. induction l; simpl; congruence. Qed.

Lemma NoDup_app_disjoint {A} (l1 l2 : list A) (k : A) :
  NoDup (l1 ++ l2) -> In k l1 -> ~ In k l2.
Proof.
  induction l1 as [|a l1 IH]; simpl; [tauto|].
  intros Hnd [->|Hin] Hk; apply NoDup_cons_iff in Hnd as [Ha Hnd].
  - apply Ha, in_or_app. now right.
  - now apply IH.
Qed.

(** The keys after the extension of a signature that has [question] and
    does not have the new names ahead of it. *)
Lemma extend_kwargs_keys (old : pydict string Field) (pre post : list string) :
  dict_keys old = pre ++ "question" :: post ->
  NoDup (dict_keys old) ->
  ~ In "_assert_feedback" pre ->
  ~ In "_assert_traces" pre ->
  exists new,
    extend_kwargs old injected_fields = Some new /\
    dict_keys new
    = pre ++ ["question"; "_assert_feedback"; "_assert_traces"]
          ++ filter not_injected post /\
    forall k,
      dict_get String.eqb k new
      = match dict_get String.eqb k injected_fields with
        | Some f => Some f
        | None => dict_get String.eqb k old
        end.
Proof.
  intros Hkeys Hnd Hf Ht.
  assert (Hq : ~ In "question" pre).
  { rewrite Hkeys in Hnd. apply NoDup_remove_2 in Hnd.
    intros H. apply Hnd. apply in_or_app. auto. }
  assert (Hpost : NoDup post /\ forall k, In k post -> ~ In k pre /\ k <> "question").
  { rewrite Hkeys in Hnd.
    pose proof (NoDup_app_remove_l _ _ Hnd) as Hqp.
    apply NoDup_cons_iff in Hqp as [Hqpost Hndpost].
    split; [exact Hndpost|]. intros k Hk. split.
    - intros Hin. apply (@NoDup_app_disjoint _ _ _ _ Hnd Hin). now right.
    - intros ->. contradiction. }
  destruct Hpost as [Hndpost Hdis].
  unfold extend_kwargs. rewrite Hkeys, list_index_app by exact Hq.
  eexists. split; [reflexivity|].
  set (keys := fold_left _ _ _).
  assert (Ekeys : keys = (pre ++ ["question"; "_assert_feedback"; "_assert_traces"]) ++ post).
  { subst keys. simpl.
    replace (List.length pre + 1) with (List.length (pre ++ ["question"]))
      by (rewrite length_app; reflexivity).
    replace (pre ++ "question" :: post) with ((pre ++ ["question"]) ++ post)
      by (now rewrite <- app_assoc).
    rewrite list_insert_app, list_insert_app.
    now rewrite <- !app_assoc. }
  assert (Hval : forall k, In k keys ->
            match dict_get String.eqb k injected_fields with
            | Some f => Some f
            | None => dict_get String.eqb k old
            end <> None).
  { intros k Hk.
    destruct (dict_get String.eqb k injected_fields) eqn:E; [discriminate|].
    apply (dict_get_In _ String.eqb_eq). rewrite Hkeys.
    rewrite Ekeys in Hk. rewrite <- app_assoc in Hk.
    apply in_app_or in Hk as [Hk|Hk]; [apply in_or_app; auto|].
    simpl in Hk. destruct Hk as [<-|[<-|[<-|Hk]]];
      try (apply in_or_app; right; simpl; now auto);
      simpl in E; discriminate. }
  split.
  - rewrite dict_comprehension_keys by exact Hval.
    rewrite Ekeys, fold_left_app.
    assert (Hnd3 : NoDup (pre ++ ["question"; "_assert_feedback"; "_assert_traces"])).
    { rewrite Hkeys in Hnd. apply NoDup_app.
      - exact (NoDup_app_remove_r _ _ Hnd).
      - repeat constructor; simpl; intuition discriminate.
      - intros a Ha [<-|[<-|[<-|[]]]]; contradiction. }
    change (dict_keys (@nil (string * Field))) with (@nil string).
    rewrite (@fold_add_key_NoDup _ [] Hnd3). simpl.
    rewrite filter_true.
    rewrite (@fold_add_key_NoDup _ _ Hndpost), <- app_assoc.
    change ("question" :: "_assert_feedback" :: "_assert_traces"
              :: filter not_injected post)
      with (["question"; "_assert_feedback"; "_assert_traces"]
              ++ filter not_injected post).
    do 2 f_equal.
    apply filter_ext_in. intros k Hk. destruct (Hdis k Hk) as [Hkpre Hkq].
    rewrite existsb_app. apply existsb_eqb_notIn in Hkpre. rewrite Hkpre.
    simpl. apply String.eqb_neq in Hkq. rewrite Hkq. unfold not_injected.
    now destruct (String.eqb k "_assert_feedback"), (String.eqb k "_assert_traces").
  - intros k. rewrite dict_comprehension_get by exact Hval.
    destruct (existsb (String.eqb k) keys) eqn:E; [reflexivity|].
    apply existsb_eqb_notIn in E. simpl.
    destruct (String.eqb k "_assert_feedback") eqn:E1.
    { apply String.eqb_eq in E1. subst k. exfalso. apply E. rewrite Ekeys.
      apply in_or_app. left. apply in_or_app. right. simpl. auto. }
    destruct (String.eqb k "_assert_traces") eqn:E2.
    { apply String.eqb_eq in E2. subst k. exfalso. apply E. rewrite Ekeys.
      apply in_or_app. left. apply in_or_app. right. simpl. auto. }
    symmetry. destruct (dict_get String.eqb k old) eqn:Eo; [|reflexivity].
    exfalso. apply E. rewrite Ekeys.
    assert (Hin : In k (dict_keys old))
      by (apply (dict_get_In _ String.eqb_eq); congruence).
    rewrite Hkeys in Hin. rewrite <- app_assoc.
    apply in_app_or in Hin as [Hin|[<-|Hin]]; apply in_or_app; simpl; auto 6.
Qed.

Lemma extend_without_question (p : PredId) (kws : pydict string Field)
    (w : World) :
  ~ In "question" (signature_keys w p) ->
  _extend_predictor_signature p kws w
  = (Raise (ValueError "'question' is not in list"), w).
Proof.
  intros H. unfold _extend_predictor_signature, bind, get_world, extend_kwargs.
  unfold signature_keys in H. now rewrite (list_index_None _ _ H).
Qed.

Lemma augment_without_question (bt : PredId) (l : Locals) (w : World) :
  ~ In "question" (signature_keys w bt) ->
  augment bt l w = (Raise (ValueError "'question' is not in list"), w).
Proof.
  intros H. unfold augment, bind, get_world.
  now rewrite extend_without_question by exact H.
Qed.

Lemma filter_idem {A} (f : A -> bool) (l : list A) :
  filter f (filter f l) = filter f l.
Proof.
  induction l as [|a l IH]; simpl; [reflexivity|].
  destruct (f a) eqn:E; simpl; rewrite ?E, IH; reflexivity.
Qed.

(** C9, as the code has it: a signature can be extended only if it has a
    field [question].  A retry that is to augment a step without one raises
    [ValueError] from the index lookup and the pipeline is not run again.
    With [question] present, and neither new name ahead of it, the two
    fields come right after it, [_assert_feedback] then [_assert_traces],
    and the other fields keep their order. *)
Theorem augmentation_requires_question (func : M PyVal) (max_backtracks : Z)
    (target_module : option Signature) (i : Z) (rest : list Z) (l : Locals)
    (w : World) (bt : PredId) (pre post : list string) :
  NoDup (signature_keys w bt) ->
  (~ In "question" (signature_keys w bt) ->
     _extend_predictor_signature bt injected_fields w
     = (Raise (ValueError "'question' is not in list"), w) /\
     (backtrack_to l = Some bt -> (0 < i)%Z ->
      backtrack_loop func max_backtracks target_module (i :: rest) l w
      = (Raise (ValueError "'question' is not in list"), w))) /\
  (signature_keys w bt = pre ++ "question" :: post ->
   ~ In "_assert_feedback" pre ->
   ~ In "_assert_traces" pre ->
   exists w',
     _extend_predictor_signature bt injected_fields w = (Ok tt, w') /\
     signature_keys w' bt
     = pre ++ ["question"; "_assert_feedback"; "_assert_traces"]
           ++ filter not_injected post /\
     filter not_injected (signature_keys w' bt)
     = filter not_injected (signature_keys w bt) /\
     dict_get String.eqb "_assert_feedback"
       (kwargs (extended_signature (predictors w' bt))) = Some feedback_field /\
     dict_get String.eqb "_assert_traces"
       (kwargs (extended_signature (predictors w' bt))) = Some traces_field).
Proof.
  intros Hnd. split.
  - intros Hq. split; [now apply extend_without_question|].
    intros Hbt Hi. simpl. unfold bind, augment_if_due. rewrite Hbt.
    apply Z.ltb_lt in Hi. rewrite Hi.
    now rewrite augment_without_question by exact Hq.
  - intros Hkeys Hf Ht.
    destruct (@extend_kwargs_keys _ _ _ Hkeys Hnd Hf Ht) as (new & Hnew & Hk & Hget).
    unfold _extend_predictor_signature, bind, get_world. rewrite Hnew.
    eexists. split; [reflexivity|].
    unfold signature_keys. simpl. unfold upd. rewrite Nat.eqb_refl. simpl.
    split; [exact Hk|]. split; [|split; rewrite Hget; reflexivity].
    rewrite Hk. fold (signature_keys w bt). rewrite Hkeys.
    rewrite !filter_app. simpl. now rewrite filter_idem.
Qed.

Lemma augmentation_requires_question_witness :
  (~ In "question" (signature_keys Examples.w_qa 0) ->
     _extend_predictor_signature 0 injected_fields Examples.w_qa
     = (Raise (ValueError "'question' is not in list"), Examples.w_qa) /\
     (backtrack_to initial_locals = Some 0 -> (0 < 1)%Z ->
      backtrack_loop (Examples.qa_pipeline 0) 1 None [1%Z] initial_locals
        Examples.w_qa
      = (Raise (ValueError "'question' is not in list"), Examples.w_qa))) /\
  (signature_keys Examples.w_qa 0 = [] ++ "question" :: ["answer"] ->
   ~ In "_assert_feedback" [] ->
   ~ In "_assert_traces" [] ->
   exists w',
     _extend_predictor_signature 0 injected_fields Examples.w_qa = (Ok tt, w') /\
     signature_keys w' 0
     = [] ++ ["question"; "_assert_feedback"; "_assert_traces"]
          ++ filter not_injected ["answer"] /\
     filter not_injected (signature_keys w' 0)
     = filter not_injected (signature_keys Examples.w_qa 0) /\
     dict_get String.eqb "_assert_feedback"
       (kwargs (extended_signature (predictors w' 0))) = Some feedback_field /\
     dict_get String.eqb "_assert_traces"
       (kwargs (extended_signature (predictors w' 0))) = Some traces_field).
Proof.
  apply (@augmentation_requires_question (Examples.qa_pipeline 0) 1 None 1
           [1%Z] initial_locals Examples.w_qa 0 [] ["answer"]).
  repeat constructor; simpl; intuition discriminate.
Defined.

(** C9 as it is worded fails on a signature that has a field
    [_assert_feedback] ahead of [question]: the field stays where it was,
    and only [_assert_traces] follows [question]. *)
Lemma injected_right_after_question_counterexample :
  ~ injected_right_after_question.
Proof.
  intros H.
  destruct (H 0 Examples.w_reserved
              (snd (_extend_predictor_signature 0 injected_fields
                      Examples.w_reserved)))
    as (pre & post & Hk).
  - simpl. auto.
  - repeat constructor; simpl; intuition discriminate.
  - reflexivity.
  - vm_compute in Hk.
    do 5 (destruct pre as [|? pre]; [discriminate Hk|]).
    discriminate Hk.
Qed.

Example extend_reserved_keys :
  signature_keys
    (snd (_extend_predictor_signature 0 injected_fields Examples.w_reserved)) 0
  = ["_assert_feedback"; "question"; "_assert_traces"; "answer"].
Proof. reflexivity. Qed.

(** ** What a run of the handler leaves alone *)

Section Keeps.

Variable B : Type.
Variable proj : World -> B.
Hypothesis proj_log : forall l w, proj (set_log l w) = proj w.
Hypothesis proj_lists : forall l w, proj (set_lists l w) = proj w.
Hypothesis proj_predictors : forall p w, proj (set_predictors p w) = proj w.

Lemma keeps_ret {A} (a : A) : keeps proj (ret a).
Proof. intros w. reflexivity. Qed.

Lemma keeps_raise {A} (e : Exn) : keeps proj (@raise A e).
Proof. intros w. reflexivity. Qed.

Lemma keeps_bind {A C} (m : M A) (f : A -> M C) :
  keeps proj m -> (forall a, keeps proj (f a)) -> keeps proj (bind m f).
Proof.
  intros Hm Hf w. unfold bind. specialize (Hm w).
  destruct (m w) as [[a|e] w1]; simpl in *; [|exact Hm].
  now rewrite Hf.
Qed.

Lemma keeps_get_world : keeps proj get_world.
Proof. intros w. reflexivity. Qed.

Lemma keeps_logger_error (s : string) : keeps proj (logger_error s).
Proof. intros w. apply proj_log. Qed.

Lemma keeps_extend (p : PredId) (kws : pydict string Field) :
  keeps proj (_extend_predictor_signature p kws).
Proof.
  intros w. unfold _extend_predictor_signature, bind, get_world.
  destruct (extend_kwargs _ _); simpl; auto.
Qed.

Lemma keeps_subscript {K V} (eqb : K -> K -> bool) (k : K) (d : pydict K V) :
  keeps proj (subscript eqb k d).
Proof. intros w. unfold subscript. now destruct (dict_get eqb k d). Qed.

Lemma keeps_wrap (p : PredId) (default_args : Store) :
  keeps proj (_wrap_forward_with_set_fields p default_args).
Proof. intros w. apply proj_predictors. Qed.

Lemma keeps_augment (bt : PredId) (l : Locals) : keeps proj (augment bt l).
Proof.
  unfold augment.
  apply keeps_bind; [apply keeps_get_world | intros w0].
  apply keeps_bind; [apply keeps_extend | intros _].
  apply keeps_bind; [apply keeps_subscript | intros msgs].
  apply keeps_bind; [apply keeps_subscript | intros traces].
  apply keeps_bind; [apply keeps_wrap | intros _]. apply keeps_ret.
Qed.

Lemma keeps_augment_if_due (i : Z) (l : Locals) :
  keeps proj (augment_if_due i l).
Proof.
  unfold augment_if_due.
  destruct (0 <? i)%Z, (backtrack_to l);
    try apply keeps_augment; apply keeps_ret.
Qed.

Lemma keeps_pop_injected_in_last (loc : Loc) :
  keeps proj (pop_injected_in_last loc).
Proof.
  intros w. unfold pop_injected_in_last, modify. simpl.
  destruct (rev (lists w loc)); auto.
Qed.

Lemma keeps_on_suggestion_error (target_module : option Signature)
    (e_id : Id) (e_msg : string) (e_state : Loc) (l : Locals) :
  keeps proj (on_suggestion_error target_module e_id e_msg e_state l).
Proof.
  unfold on_suggestion_error.
  apply keeps_bind; [apply keeps_get_world | intros w0].
  destruct (last_element (lists w0 e_state)); [|apply keeps_raise].
  destruct (current_trace w0).
  - apply keeps_bind; [apply keeps_logger_error | intros _]. apply keeps_ret.
  - apply keeps_bind.
    + destruct (resolve_backtrack_to _ _ _ _);
        [apply keeps_ret | apply keeps_logger_error].
    + intros _. apply keeps_bind; [apply keeps_pop_injected_in_last | intros _].
      apply keeps_ret.
Qed.

End Keeps.

(** ** The retry loop *)

Lemma list_index_Some (x : string) (l : list string) :
  In x l -> exists n, list_index x l = Some n.
Proof.
  induction l as [|y l IH]; simpl; [tauto|].
  intros H. destruct (String.eqb y x) eqn:E; [now exists 0|].
  destruct IH as [n Hn].
  - destruct H as [->|H]; [|exact H].
    rewrite String.eqb_refl in E. discriminate.
  - exists (S n). now rewrite Hn.
Qed.

Lemma In_list_insert {A} (position : nat) (x k : A) (l : list A) :
  In k (list_insert position x l) <-> k = x \/ In k l.
Proof.
  unfold list_insert. rewrite <- (firstn_skipn position l) at 3.
  rewrite !in_app_iff. simpl. intuition congruence.
Qed.

Lemma extend_keeps_question (old : pydict string Field) :
  In "question" (dict_keys old) ->
  exists new,
    extend_kwargs old injected_fields = Some new /\
    In "question" (dict_keys new).
Proof.
  intros Hq. unfold extend_kwargs.
  destruct (list_index_Some _ _ Hq) as [idx ->].
  eexists. split; [reflexivity|].
  change (rev (dict_keys injected_fields))
    with ["_assert_traces"; "_assert_feedback"].
  cbn [fold_left].
  set (keys := list_insert _ _ _).
  set (value := fun key : string => _).
  assert (Hkeys : forall k, In k keys ->
            k = "_assert_feedback" \/ k = "_assert_traces" \/ In k (dict_keys old)).
  { intros k Hk. subst keys.
    apply In_list_insert in Hk as [Hk|Hk]; [auto|].
    apply In_list_insert in Hk as [Hk|Hk]; auto. }
  assert (Hval : forall k, In k keys -> value k <> None).
  { intros k Hk. subst value. cbv beta.
    destruct (dict_get String.eqb k injected_fields) eqn:E; [discriminate|].
    apply Hkeys in Hk as [->|[->|Hk]]; try (cbv in E; discriminate E).
    now apply (dict_get_In _ String.eqb_eq). }
  apply (dict_get_In _ String.eqb_eq).
  rewrite dict_comprehension_get by exact Hval.
  assert (Hin : In "question" keys).
  { subst keys. apply In_list_insert. right. apply In_list_insert. now right. }
  rewrite (proj2 (existsb_eqb_In _ _) Hin).
  apply Hval, Hin.
Qed.

(** Augmenting a step that has [question], feedback and failure traces
    succeeds; it changes that step only. *)
Lemma augment_ok (bt : PredId) (l : Locals) (w : World) :
  all_have_question w ->
  locals_ok l ->
  backtrack_to l = Some bt ->
  exists l' w',
    augment bt l w = (Ok l', w') /\
    config w' = config w /\ calls w' = calls w /\
    all_have_question w' /\
    locals_ok l' /\ backtrack_to l' = backtrack_to l.
Proof.
  intros Hq Hl Hbt.
  destruct (Hl bt Hbt) as [Hfb Hft].
  destruct (extend_keeps_question _ (Hq bt)) as (new & Hnew & Hin).
  unfold augment, bind, get_world, _extend_predictor_signature, bind, get_world.
  rewrite Hnew. unfold set_extended_signature, modify, subscript.
  destruct (dict_get pred_key_eqb (Some bt) (predictor_feedbacks l)) as [msgs|];
    [|congruence].
  destruct (dict_get pred_key_eqb (Some bt) (failure_traces l)) as [traces|];
    [|congruence].
  unfold ret, _wrap_forward_with_set_fields, bind, get_world, set_forward, modify.
  eexists _, _. split; [reflexivity|]. simpl.
  split; [reflexivity|]. split; [reflexivity|]. split; [|split; [exact Hl | reflexivity]].
  intros p. unfold signature_keys, upd. simpl.
  destruct (Nat.eqb p bt) eqn:E; simpl.
  - rewrite Nat.eqb_refl. simpl. exact Hin.
  - apply Hq.
Qed.

Lemma augment_if_due_ok (i : Z) (l : Locals) (w : World) :
  all_have_question w ->
  locals_ok l ->
  exists l' w',
    augment_if_due i l w = (Ok l', w') /\
    config w' = config w /\ calls w' = calls w /\
    all_have_question w' /\
    locals_ok l' /\ backtrack_to l' = backtrack_to l.
Proof.
  intros Hq Hl. unfold augment_if_due.
  destruct (0 <? i)%Z, (backtrack_to l) as [bt|] eqn:E;
    [rewrite <- E; now apply augment_ok | | |];
    exists l, w; do 3 (split; [reflexivity|]);
    (split; [exact Hq|]); (split; [exact Hl|]); congruence.
Qed.

Lemma record_feedback_has (bt : option PredId) (m : string)
    (fb : pydict (option PredId) (list string)) :
  dict_get pred_key_eqb bt (record_feedback bt m fb) <> None.
Proof.
  assert (Hr : forall k, pred_key_eqb k k = true)
    by (intros k; now apply pred_key_eqb_eq).
  unfold record_feedback, dict_setdefault.
  destruct (dict_get pred_key_eqb bt fb) as [msgs|] eqn:E.
  - destruct (existsb (String.eqb m) msgs); [congruence|].
    now rewrite dict_get_set_same.
  - simpl. now rewrite dict_get_set_same.
Qed.

Lemma record_failure_trace_has (bt : option PredId) (suggest_id : Id)
    (entry : Store * Store * string)
    (traces : pydict (option PredId) FailureTraces) :
  dict_get pred_key_eqb bt (record_failure_trace bt suggest_id entry traces)
  <> None.
Proof.
  assert (Hr : forall k, pred_key_eqb k k = true)
    by (intros k; now apply pred_key_eqb_eq).
  unfold record_failure_trace, dict_setdefault.
  match goal with
  | |- context [match ?x with Some _ => _ | None => _ end] => destruct x
  end; rewrite dict_get_set_same by exact Hr; discriminate.
Qed.

(** Catching a soft violation whose state is not empty cannot raise; it
    leaves flags, steps and the record of calls alone. *)
Lemma on_suggestion_error_ok (target_module : option Signature) (e_id : Id)
    (e_msg : string) (e_state : Loc) (l : Locals) (w : World) :
  lists w e_state <> [] ->
  locals_ok l ->
  exists l' w',
    on_suggestion_error target_module e_id e_msg e_state l w = (Ok l', w') /\
    config w' = config w /\ predictors w' = predictors w /\
    calls w' = calls w /\ locals_ok l'.
Proof.
  intros Hst Hl.
  destruct (current_trace w) as [|x tr] eqn:Etr.
  - destruct (last_element_nonempty Hst) as [error_state Hlast].
    unfold on_suggestion_error, bind, get_world.
    rewrite Hlast, Etr. unfold logger_error, modify, ret.
    eexists _, _. split; [reflexivity|]. simpl. auto.
  - assert (Hne : current_trace w <> []) by congruence.
    destruct (@on_suggestion_error_resolves target_module e_id e_msg e_state
                l w Hst Hne)
      as (error_state & w' & _ & Hrun & Hc & Hp & Hcalls & _).
    cbv zeta in Hrun. eexists _, w'. split; [exact Hrun|].
    split; [exact Hc|]. split; [exact Hp|]. split; [exact Hcalls|].
    intros b Hb. simpl in Hb |- *. rewrite Hb. split.
    + apply record_feedback_has.
    + apply record_failure_trace_has.
Qed.

(** One round of the loop, unfolded. *)
Lemma backtrack_loop_cons (func : M PyVal) (N : Z)
    (target_module : option Signature) (i : Z) (rest : list Z) (l : Locals)
    (w : World) :
  backtrack_loop func N target_module (i :: rest) l w =
  match augment_if_due i l w with
  | (Ok l1, w1) =>
      if (i =? N)%Z then
        (r <- bypass_suggest_handler func;; ret (set_result r l1)) w1
      else
        match invoke func w1 with
        | (Ok r, w') => (Ok (set_result r l1), w')
        | (Raise (DSPySuggestionError e_id e_msg e_state), w') =>
            (l2 <- on_suggestion_error target_module e_id e_msg e_state l1;;
             backtrack_loop func N target_module rest l2) w'
        | (Raise e, w') => (Raise e, w')
        end
  | (Raise e, w1) => (Raise e, w1)
  end.
Proof.
  simpl. unfold bind at 1.
  destruct (augment_if_due i l w) as [[l1|e] w1]; [|reflexivity].
  destruct (i =? N)%Z; reflexivity.
Qed.

Lemma invoke_eq {A} (func : M A) (w w' : World) (r : Result A) :
  func w = (r, w') ->
  invoke func w = (r, set_calls (calls w ++ [config w]) w').
Proof. intros H. unfold invoke. now rewrite H. Qed.

Lemma all_have_question_ext (w w' : World) :
  predictors w' = predictors w -> all_have_question w -> all_have_question w'.
Proof.
  intros H Hq p. unfold signature_keys. rewrite H. apply Hq.
Qed.

(** While the soft constraint fails the loop goes on: after [r] failed
    attempts it stands before its last round, having run the pipeline [r]
    times under the flags it was entered with. *)
Lemma loop_reaches_final_attempt (func : M PyVal) (N : Z)
    (target_module : option Signature) :
  soft_fails_every_time func ->
  forall (r k : nat) (l : Locals) (w : World),
    Z.of_nat (k + r) = N ->
    bypass_suggest (config w) = false ->
    all_have_question w ->
    locals_ok l ->
    exists l' w',
      backtrack_loop func N target_module (map Z.of_nat (seq k (S r))) l w
      = (v <- bypass_suggest_handler func;; ret (set_result v l')) w' /\
      config w' = config w /\
      calls w' = calls w ++ repeat (config w) r.
Proof.
  intros Hfail. induction r as [|r IH]; intros k l w HN Hflag Hq Hl.
  - change (map Z.of_nat (seq k 1)) with [Z.of_nat k].
    rewrite backtrack_loop_cons.
    destruct (augment_if_due_ok (Z.of_nat k) Hq Hl)
      as (l1 & w1 & -> & Hc1 & Hcalls1 & Hq1 & Hl1 & _).
    rewrite Nat.add_0_r in HN. rewrite HN, Z.eqb_refl.
    exists l1, w1. simpl. rewrite app_nil_r. auto.
  - change (map Z.of_nat (seq k (S (S r))))
      with (Z.of_nat k :: map Z.of_nat (seq (S k) (S r))).
    rewrite backtrack_loop_cons.
    destruct (augment_if_due_ok (Z.of_nat k) Hq Hl)
      as (l1 & w1 & -> & Hc1 & Hcalls1 & Hq1 & Hl1 & _).
    assert (Hi : (Z.of_nat k =? N)%Z = false) by (apply Z.eqb_neq; lia).
    rewrite Hi.
    assert (Hflag1 : bypass_suggest (config w1) = false) by now rewrite Hc1.
    destruct (Hfail w1 Hflag1)
      as (e_id & e_msg & e_state & w2 & Hrun & Hst & Hc2 & Hp2).
    rewrite (invoke_eq _ _ Hrun).
    set (w3 := set_calls _ w2).
    assert (Hst3 : lists w3 e_state <> []) by exact Hst.
    destruct (@on_suggestion_error_ok target_module e_id e_msg e_state l1 w3
                Hst3 Hl1)
      as (l2 & w4 & Herr & Hc4 & Hp4 & Hcalls4 & Hl2).
    unfold bind at 1. rewrite Herr.
    assert (Hc : config w4 = config w).
    { rewrite Hc4. subst w3. simpl. congruence. }
    destruct (IH (S k) l2 w4) as (l' & w' & Hloop & Hc' & Hcalls').
    + rewrite <- HN. f_equal. lia.
    + now rewrite Hc.
    + apply (@all_have_question_ext w1); [|exact Hq1].
      rewrite Hp4. subst w3. simpl. exact Hp2.
    + exact Hl2.
    + exists l', w'. split; [exact Hloop|]. split; [congruence|].
      rewrite Hcalls', Hcalls4, Hc. subst w3. simpl.
      rewrite Hcalls1, Hc1, <- app_assoc. reflexivity.
Qed.

Lemma revert_predictors_ok (items : pydict PredId Forward) (w : World) :
  exists w',
    revert_predictors items w = (Ok tt, w') /\
    config w' = config w /\ calls w' = calls w.
Proof.
  revert w. induction items as [|[p f] items IH]; intros w.
  - exists w. auto.
  - cbn [revert_predictors].
    repeat (progress (unfold bind, _revert_predictor_signature, get_world,
                        set_extended_signature, set_forward, modify;
                      cbv beta iota zeta)).
    match goal with |- context [revert_predictors items ?w1] =>
      destruct (IH w1) as (w' & -> & Hc & Hcalls) end.
    exists w'. auto.
Qed.

(** The last round runs the pipeline with [bypass_suggest] on and
    [bypass_assert] off, whatever the flags in force, which it restores. *)
Lemma bypass_suggest_handler_eq {A} (func : M A) (w w' : World)
    (r : Result A) :
  func (set_config (mkConfig false true) w) = (r, w') ->
  bypass_suggest_handler func w
  = (r, set_config (config w)
          (set_calls (calls w ++ [mkConfig false true]) w')).
Proof.
  intros H. unfold bypass_suggest_handler, context.
  rewrite (invoke_eq _ _ H). reflexivity.
Qed.

(** ** Runs of the handler *)

Lemma py_range_succ (N : Z) :
  (0 <= N)%Z ->
  py_range (N + 1) = map Z.of_nat (seq 0 (S (Z.to_nat N))).
Proof.
  intros H. unfold py_range. f_equal. f_equal.
  rewrite Z2Nat.inj_add by lia. simpl. lia.
Qed.

Lemma locals_ok_initial : locals_ok initial_locals.
Proof. intros bt H. discriminate H. Qed.

(** A handler whose pipeline fails softly in every attempt reaches the
    forced attempt; what the handler does is what that attempt does,
    followed by the reverts. *)
Lemma handler_reaches_final_attempt (func : M PyVal) (N : Z)
    (target_module : option Signature) (w : World) :
  (0 <= N)%Z ->
  bypass_suggest (config w) = false ->
  all_have_question w ->
  soft_fails_every_time func ->
  exists l1 w1,
    suggest_backtrack_handler func N target_module w
    = (l <- (v <- bypass_suggest_handler func;; ret (set_result v l1));;
       revert_predictors (predictors_to_original_forward l);;;
       ret (result l)) w1 /\
    config w1 = config w /\
    calls w1 = calls w ++ repeat (config w) (Z.to_nat N).
Proof.
  intros HN Hflag Hq Hfail.
  destruct (@loop_reaches_final_attempt func N target_module Hfail
              (Z.to_nat N) 0 initial_locals w)
    as (l1 & w1 & Hloop & Hc & Hcalls); auto using locals_ok_initial.
  { simpl. now apply Z2Nat.id. }
  exists l1, w1. split; [|auto].
  unfold suggest_backtrack_handler. rewrite py_range_succ by exact HN.
  unfold bind at 1. rewrite Hloop. reflexivity.
Qed.

(** While the soft constraint fails, round follows round. *)
Lemma soft_failures_chain (Q : pydict RegKey Constraint -> Prop)
    (func : M PyVal) (target_module : option Signature) :
  soft_fails_while Q func ->
  forall (r k : nat) (l : Locals) (w : World),
    bypass_suggest (config w) = false ->
    all_have_question w ->
    locals_ok l ->
    Q (registry w) ->
    exists l' w',
      failed_rounds func target_module k r (l, w) (l', w') /\
      config w' = config w /\
      calls w' = calls w ++ repeat (config w) r /\
      all_have_question w' /\
      locals_ok l' /\
      Q (registry w').
Proof.
  intros Hfail. induction r as [|r IH]; intros k l w Hflag Hq Hl HQ.
  - exists l, w. simpl. rewrite app_nil_r.
    do 3 (split; [reflexivity|]). split; [exact Hq|]. split; [exact Hl|exact HQ].
  - destruct (augment_if_due_ok (Z.of_nat k) Hq Hl)
      as (l1 & w1 & Haug & Hc1 & Hcalls1 & Hq1 & Hl1 & _).
    pose proof (@keeps_augment_if_due _ registry (fun _ _ => eq_refl)
                  (Z.of_nat k) l w) as Hr1.
    rewrite Haug in Hr1. simpl in Hr1.
    assert (Hflag1 : bypass_suggest (config w1) = false) by now rewrite Hc1.
    assert (HQ1 : Q (registry w1)) by now rewrite Hr1.
    destruct (Hfail w1 HQ1 Hflag1)
      as (e_id & e_msg & e_state & w2 & Hrun & Hst & Hc2 & Hp2 & HQ2).
    pose proof (invoke_eq _ _ Hrun) as Hinv.
    set (w3 := set_calls (calls w1 ++ [config w1]) w2) in Hinv.
    assert (Hst3 : lists w3 e_state <> []) by exact Hst.
    destruct (@on_suggestion_error_ok target_module e_id e_msg e_state l1 w3
                Hst3 Hl1)
      as (l2 & w4 & Herr & Hc4 & Hp4 & Hcalls4 & Hl2).
    pose proof (@keeps_on_suggestion_error _ registry (fun _ _ => eq_refl)
                  (fun _ _ => eq_refl) target_module e_id e_msg e_state l1 w3)
      as Hr4.
    rewrite Herr in Hr4. simpl in Hr4.
    assert (Hc : config w4 = config w).
    { rewrite Hc4. subst w3. simpl. congruence. }
    destruct (IH (S k) l2 w4) as (l' & w' & Hchain & Hc' & Hcalls' & Hq' & Hl' & HQ').
    + now rewrite Hc.
    + apply (@all_have_question_ext w1); [|exact Hq1].
      rewrite Hp4. subst w3. simpl. exact Hp2.
    + exact Hl2.
    + now rewrite Hr4.
    + exists l', w'. split.
      * cbn [failed_rounds]. exists (l2, w4). split; [|exact Hchain].
        exists l1, w1, e_id, e_msg, e_state, w3. auto.
      * split; [congruence|]. split; [|auto].
        rewrite Hcalls', Hcalls4, Hc. subst w3. simpl.
        rewrite Hcalls1, Hc1, <- app_assoc. reflexivity.
Qed.

(** Rounds that fail before the last index is reached are what the loop
    does first, whatever the pipeline. *)
Lemma loop_after_failed_rounds (func : M PyVal) (N : Z)
    (target_module : option Signature) :
  forall (r k : nat) (s s' : Locals * World) (rest : list Z),
    failed_rounds func target_module k r s s' ->
    (Z.of_nat (k + r) <= N)%Z ->
    backtrack_loop func N target_module (map Z.of_nat (seq k r) ++ rest)
      (fst s) (snd s)
    = backtrack_loop func N target_module rest (fst s') (snd s').
Proof.
  induction r as [|r IH]; intros k s s' rest Hchain HN.
  - simpl in Hchain. now subst s'.
  - destruct Hchain
      as (s1 & (l1 & w1 & e_id & e_msg & e_state & w2 & Haug & Hinv & Herr)
             & Hchain).
    change (map Z.of_nat (seq k (S r)) ++ rest)
      with (Z.of_nat k :: (map Z.of_nat (seq (S k) r) ++ rest)).
    rewrite backtrack_loop_cons, Haug.
    assert (Hi : (Z.of_nat k =? N)%Z = false) by (apply Z.eqb_neq; lia).
    rewrite Hi, Hinv. unfold bind at 1. rewrite Herr.
    apply IH; [exact Hchain | lia].
Qed.

(** C3, as the code has it: with [max_backtracks = N >= 0], entered with
    [bypass_suggest] off, a pipeline whose soft constraint fails on every
    invocation and whose steps all have a field [question] is run exactly
    [N + 1] times.  [N] rounds, each running the pipeline once under the
    flags in force and ending in the caught violation, lead from the world
    the handler was entered in to the world [w1]; the last round augments
    the step resolved, which gives [w2], and runs the pipeline from [w2]
    with [bypass_suggest] forced on and [bypass_assert] off.  That run
    returns [v], the steps are reverted, the flags restored, and the
    handler returns [v]. *)
Theorem bounded_retry (Q : pydict RegKey Constraint -> Prop)
    (func : M PyVal) (N : Z) (target_module : option Signature) (w : World) :
  (0 <= N)%Z ->
  bypass_suggest (config w) = false ->
  all_have_question w ->
  Q (registry w) ->
  soft_fails_while Q func ->
  completes_when_bypassed_while Q func ->
  exists v w' l1 w1 l2 w2 w_out,
    failed_rounds func target_module 0 (Z.to_nat N) (initial_locals, w)
      (l1, w1) /\
    augment_if_due N l1 w1 = (Ok l2, w2) /\
    config w2 = config w /\
    calls w2 = calls w ++ repeat (config w) (Z.to_nat N) /\
    func (set_config (mkConfig false true) w2) = (Ok v, w_out) /\
    revert_predictors (predictors_to_original_forward l2)
      (set_config (config w)
         (set_calls (calls w2 ++ [mkConfig false true]) w_out))
    = (Ok tt, w') /\
    suggest_backtrack_handler func N target_module w = (Ok v, w') /\
    calls w' = calls w ++ repeat (config w) (Z.to_nat N) ++ [mkConfig false true] /\
    List.length (calls w') = List.length (calls w) + Z.to_nat N + 1 /\
    config w' = config w.
Proof.
  intros HN Hflag Hq HQ Hfail Hcomp.
  destruct (@soft_failures_chain Q func target_module Hfail (Z.to_nat N) 0
              initial_locals w Hflag Hq locals_ok_initial HQ)
    as (l1 & w1 & Hchain & Hc1 & Hcalls1 & Hq1 & Hl1 & HQ1).
  destruct (augment_if_due_ok N Hq1 Hl1)
    as (l2 & w2 & Haug & Hc2 & Hcalls2 & _).
  pose proof (@keeps_augment_if_due _ registry (fun _ _ => eq_refl) N l1 w1)
    as Hr2.
  rewrite Haug in Hr2. simpl in Hr2.
  assert (HQ2 : Q (registry (set_config (mkConfig false true) w2)))
    by (simpl; now rewrite Hr2).
  destruct (Hcomp (set_config (mkConfig false true) w2) HQ2 eq_refl)
    as (v & w_out & Hfinal).
  pose proof (bypass_suggest_handler_eq _ _ Hfinal) as Hforced.
  destruct (revert_predictors_ok (predictors_to_original_forward l2)
              (set_config (config w)
                 (set_calls (calls w2 ++ [mkConfig false true]) w_out)))
    as (w' & Hrev & Hc' & Hcalls').
  assert (Hcfg2 : config w2 = config w) by congruence.
  assert (Hk2 : calls w2 = calls w ++ repeat (config w) (Z.to_nat N))
    by congruence.
  assert (Hcalls : calls w'
            = calls w ++ repeat (config w) (Z.to_nat N) ++ [mkConfig false true]).
  { rewrite Hcalls'. simpl. rewrite Hk2. now rewrite app_assoc. }
  exists v, w', l1, w1, l2, w2, w_out.
  split; [exact Hchain|]. split; [exact Haug|]. split; [exact Hcfg2|].
  split; [exact Hk2|]. split; [exact Hfinal|]. split; [exact Hrev|].
  split; [|split; [exact Hcalls|split]].
  - unfold suggest_backtrack_handler. rewrite py_range_succ by exact HN.
    rewrite seq_S, map_app. unfold bind at 1.
    assert (Hle : (Z.of_nat (0 + Z.to_nat N) <= N)%Z) by (simpl; lia).
    pose proof (@loop_after_failed_rounds func N target_module (Z.to_nat N) 0
                  (initial_locals, w) (l1, w1)
                  (map Z.of_nat [0 + Z.to_nat N]) Hchain Hle) as Hloop.
    cbn [fst snd] in Hloop. rewrite Hloop.
    cbn [map Nat.add]. rewrite backtrack_loop_cons.
    rewrite Z2Nat.id by exact HN. rewrite Haug, Z.eqb_refl.
    unfold bind at 1. rewrite Hforced, Hcfg2. unfold ret at 1.
    unfold bind. cbn [set_result predictors_to_original_forward result].
    rewrite Hrev. reflexivity.
  - rewrite Hcalls, !length_app, repeat_length. simpl. lia.
  - rewrite Hc'. reflexivity.
Qed.

(** C10: the forced last attempt runs under [bypass_suggest = True] and
    [bypass_assert = False].  So when [N] attempts have failed softly and
    the pipeline has a hard constraint that fails, the handler raises
    [DSPyAssertionError], also when the handler was entered with
    [bypass_assert] on; the flags in force are restored. *)
Theorem forced_attempt_enforces_hard (func : M PyVal) (N : Z)
    (target_module : option Signature) (w : World) :
  (0 <= N)%Z ->
  bypass_suggest (config w) = false ->
  all_have_question w ->
  soft_fails_every_time func ->
  hard_fails_when_enforced func ->
  exists e_id e_msg e_state w',
    suggest_backtrack_handler func N target_module w
    = (Raise (DSPyAssertionError e_id e_msg e_state), w') /\
    calls w' = calls w ++ repeat (config w) (Z.to_nat N) ++ [mkConfig false true] /\
    config w' = config w.
Proof.
  intros HN Hflag Hq Hfail Hhard.
  destruct (@handler_reaches_final_attempt func N target_module w HN Hflag Hq Hfail)
    as (l1 & w1 & Hrun & Hc1 & Hcalls1).
  destruct (Hhard (set_config (mkConfig false true) w1) eq_refl eq_refl)
    as (e_id & e_msg & e_state & w2 & Hfinal).
  rewrite Hrun. unfold bind at 1. unfold bind at 1.
  rewrite (bypass_suggest_handler_eq _ _ Hfinal).
  eexists _, _, _, _. split; [reflexivity|]. simpl.
  rewrite Hcalls1, <- app_assoc. auto.
Qed.

(** *** The example pipelines *)

Lemma upd_same {A} (f : nat -> A) (i : nat) (a : A) : upd f i a i = a.
Proof. unfold upd. now rewrite Nat.eqb_refl. Qed.

Lemma soft_pipeline_fails (p : PredId) :
  soft_fails_every_time (Examples.soft_pipeline p).
Proof.
  intros w Hflag.
  unfold Examples.soft_pipeline, call_predictor, trace_append, bind,
    get_world, modify.
  rewrite Suggest_call_false_cases by reflexivity.
  cbn [config set_lists]. rewrite Hflag.
  eexists _, _, _, _. split; [reflexivity|]. cbn.
  split; [|auto]. rewrite upd_same.
  intros H. apply app_eq_nil in H as [_ H]. discriminate H.
Qed.

Lemma soft_pipeline_completes (p : PredId) :
  completes_when_bypassed (Examples.soft_pipeline p).
Proof.
  intros w Hflag.
  unfold Examples.soft_pipeline, call_predictor, trace_append, bind,
    get_world, modify.
  rewrite Suggest_call_false_cases by reflexivity.
  cbn [config set_lists]. rewrite Hflag.
  eexists _, _. reflexivity.
Qed.

Lemma soft_then_hard_pipeline_fails (p : PredId) :
  soft_fails_every_time (Examples.soft_then_hard_pipeline p).
Proof.
  intros w Hflag.
  unfold Examples.soft_then_hard_pipeline, call_predictor, trace_append, bind,
    get_world, modify.
  rewrite Suggest_call_false_cases by reflexivity.
  cbn [config set_lists]. rewrite Hflag.
  eexists _, _, _, _. split; [reflexivity|]. cbn.
  split; [|auto]. rewrite upd_same.
  intros H. apply app_eq_nil in H as [_ H]. discriminate H.
Qed.

Lemma soft_then_hard_pipeline_hard (p : PredId) :
  hard_fails_when_enforced (Examples.soft_then_hard_pipeline p).
Proof.
  intros w Hsoft Hhard.
  unfold Examples.soft_then_hard_pipeline, call_predictor, trace_append, bind,
    get_world, modify.
  rewrite Suggest_call_false_cases by reflexivity.
  cbn [config set_lists]. rewrite Hsoft.
  rewrite Assert_call_false_cases by reflexivity.
  cbn [config set_lists set_log]. rewrite Hhard.
  eexists _, _, _, _. reflexivity.
Qed.

Lemma all_have_question_qa (c : Config) :
  all_have_question (Examples.world_with c (fun _ => Examples.qa_predictor)).
Proof. intros p. simpl. auto. Qed.

(** The suggestion of [Examples.qa_pipeline], constructed where its tuple
    is free or registered for a soft constraint: the flag decides, and the
    registry stays as the pipeline needs it. *)
Lemma Suggest_brief (w : World) :
  brief_is_soft (registry w) ->
  exists id msg w',
    Suggest (PyBool false) "be brief" None w
    = (if bypass_suggest (config w) then Ok tt
       else Raise (DSPySuggestionError id msg (trace w)), w') /\
    config w' = config w /\ lists w' = lists w /\
    predictors w' = predictors w /\ brief_is_soft (registry w').
Proof.
  unfold brief_is_soft. intros HQ.
  unfold Suggest, Constraint___init__. unfold bind at 1.
  destruct (dict_get key_eqb (PyBool false, "be brief", None) (registry w))
    as [c|] eqn:E.
  - destruct HQ as [Hcls Hres].
    rewrite (@Constraint_self_registered KSuggest (PyBool false) _ _ _ _
               eq_refl E).
    cbn [fst]. unfold bind at 1. unfold Constraint___call__. rewrite Hcls.
    rewrite Suggest_call_false_cases by exact Hres.
    exists (c_id c), (c_msg c). eexists. split.
    + destruct (bypass_suggest (config w)); reflexivity.
    + cbn. rewrite E. auto.
  - rewrite (@Constraint_self_fresh KSuggest (PyBool false) _ _ _ eq_refl E).
    cbn [fst]. unfold bind at 1. unfold Constraint___call__. cbn [c_cls].
    rewrite Suggest_call_false_cases by reflexivity.
    exists (uuid_supply w), "be brief". eexists. split.
    + cbn [config set_registry set_uuid_supply trace c_id c_msg].
      destruct (bypass_suggest (config w)); reflexivity.
    + cbn. rewrite dict_get_set_same by apply key_eqb_refl. auto.
Qed.

(** The pipeline that constructs its suggestion fails softly wherever the
    tuple of the suggestion is free or registered for a soft constraint,
    and keeps the registry so. *)
Lemma qa_pipeline_fails (p : PredId) :
  soft_fails_while brief_is_soft (Examples.qa_pipeline p).
Proof.
  intros w HQ Hflag.
  unfold Examples.qa_pipeline.
  unfold bind at 1.
  unfold call_predictor at 1. unfold bind at 1. unfold get_world at 1.
  unfold trace_append at 1. unfold modify at 1.
  set (w1 := set_lists _ w).
  destruct (@Suggest_brief w1 HQ) as (id & msg & w' & Hrun & Hc & Hl & Hp & HQ').
  change (config w1) with (config w) in Hrun, Hc. rewrite Hflag in Hrun.
  unfold bind at 1. rewrite Hrun.
  exists id, msg, (trace w1), w'. split; [reflexivity|].
  split; [|auto]. rewrite Hl. subst w1. cbn. rewrite upd_same.
  intros H. apply app_eq_nil in H as [_ H]. discriminate H.
Qed.

Lemma qa_pipeline_completes (p : PredId) :
  completes_when_bypassed_while brief_is_soft (Examples.qa_pipeline p).
Proof.
  intros w HQ Hflag.
  unfold Examples.qa_pipeline.
  unfold bind at 1.
  unfold call_predictor at 1. unfold bind at 1. unfold get_world at 1.
  unfold trace_append at 1. unfold modify at 1.
  set (w1 := set_lists _ w).
  destruct (@Suggest_brief w1 HQ) as (id & msg & w' & Hrun & _).
  change (config w1) with (config w) in Hrun. rewrite Hflag in Hrun.
  unfold bind at 1. rewrite Hrun. eexists _, _. reflexivity.
Qed.

Lemma bounded_retry_witness :
  exists v w' l1 w1 l2 w2 w_out,
    failed_rounds (Examples.qa_pipeline 0) None 0 (Z.to_nat 2)
      (initial_locals, Examples.w_qa) (l1, w1) /\
    augment_if_due 2 l1 w1 = (Ok l2, w2) /\
    config w2 = config Examples.w_qa /\
    calls w2
    = calls Examples.w_qa ++ repeat (config Examples.w_qa) (Z.to_nat 2) /\
    Examples.qa_pipeline 0 (set_config (mkConfig false true) w2)
    = (Ok v, w_out) /\
    revert_predictors (predictors_to_original_forward l2)
      (set_config (config Examples.w_qa)
         (set_calls (calls w2 ++ [mkConfig false true]) w_out))
    = (Ok tt, w') /\
    suggest_backtrack_handler (Examples.qa_pipeline 0) 2 None Examples.w_qa
    = (Ok v, w') /\
    calls w'
    = calls Examples.w_qa
      ++ repeat (config Examples.w_qa) (Z.to_nat 2) ++ [mkConfig false true] /\
    List.length (calls w') = List.length (calls Examples.w_qa) + Z.to_nat 2 + 1 /\
    config w' = config Examples.w_qa.
Proof.
  apply (@bounded_retry brief_is_soft (Examples.qa_pipeline 0) 2 None
           Examples.w_qa).
  - lia.
  - reflexivity.
  - apply all_have_question_qa.
  - exact I.
  - apply qa_pipeline_fails.
  - apply qa_pipeline_completes.
Defined.

(** The run of the witness: three runs of the pipeline that constructs
    its suggestion, the last with [bypass_suggest] forced on, and the value
    of that run returned. *)
Example bounded_retry_run :
  let r := suggest_backtrack_handler (Examples.qa_pipeline 0) 2 None
             Examples.w_qa in
  fst r = Ok (PyStr "a") /\
  calls (snd r)
  = [mkConfig false false; mkConfig false false; mkConfig false true].
Proof. split; reflexivity. Qed.

(** C3 as it is worded fails for a pipeline whose step is declared
    [context -> summary]: with [max_backtracks = 1] the retry raises
    [ValueError] and the pipeline has run once. *)
Lemma bounded_retry_counterexample : ~ bounded_retry_for_every_pipeline.
Proof.
  intros H.
  destruct (H (Examples.soft_pipeline 1) 1%Z None Examples.w0)
    as (v & w' & Hrun & _).
  - lia.
  - reflexivity.
  - apply soft_pipeline_fails.
  - apply soft_pipeline_completes.
  - vm_compute in Hrun. discriminate Hrun.
Qed.

Example retry_without_question :
  let r := suggest_backtrack_handler (Examples.soft_pipeline 1) 1 None
             Examples.w0 in
  fst r = Raise (ValueError "'question' is not in list") /\
  calls (snd r) = [mkConfig false false].
Proof. split; reflexivity. Qed.

Lemma forced_attempt_enforces_hard_witness :
  exists e_id e_msg e_state w',
    suggest_backtrack_handler (Examples.soft_then_hard_pipeline 0) 1 None
      (Examples.world_with (mkConfig true false) (fun _ => Examples.qa_predictor))
    = (Raise (DSPyAssertionError e_id e_msg e_state), w') /\
    calls w'
    = calls (Examples.world_with (mkConfig true false)
               (fun _ => Examples.qa_predictor))
      ++ repeat (mkConfig true false) (Z.to_nat 1) ++ [mkConfig false true] /\
    config w' = mkConfig true false.
Proof.
  apply (@forced_attempt_enforces_hard (Examples.soft_then_hard_pipeline 0) 1
           None
           (Examples.world_with (mkConfig true false)
              (fun _ => Examples.qa_predictor))).
  - lia.
  - reflexivity.
  - apply all_have_question_qa.
  - apply soft_then_hard_pipeline_fails.
  - apply soft_then_hard_pipeline_hard.
Defined.

(** Entered with [bypass_assert] on and [max_backtracks = 0], the handler
    raises the hard violation of its only attempt. *)
Example forced_attempt_with_hard_bypass_on :
  fst (suggest_backtrack_handler (Examples.soft_then_hard_pipeline 0) 0 None
         (Examples.world_with (mkConfig true true) (fun _ => Examples.qa_predictor)))
  = Raise (DSPyAssertionError 1 "cite a source" 0).
Proof. reflexivity. Qed.

(** ** A target that is not in the trace *)

(** Augmenting a step changes neither the step resolved nor what was
    recorded. *)
Lemma augment_if_due_locals (i : Z) (l l1 : Locals) (w w1 : World) :
  augment_if_due i l w = (Ok l1, w1) ->
  backtrack_to l1 = backtrack_to l /\
  predictor_feedbacks l1 = predictor_feedbacks l /\
  failure_traces l1 = failure_traces l.
Proof.
  unfold augment_if_due.
  destruct (0 <? i)%Z, (backtrack_to l) as [bt|] eqn:E;
    try (intros [= <- <-]; auto).
  unfold augment, bind, get_world.
  destruct (_extend_predictor_signature bt injected_fields w) as [[u|e] w0];
    [|discriminate].
  unfold subscript.
  destruct (dict_get pred_key_eqb (Some bt) (predictor_feedbacks l));
    [|discriminate].
  destruct (dict_get pred_key_eqb (Some bt) (failure_traces l));
    [|discriminate].
  unfold ret at 1 2.
  destruct (_wrap_forward_with_set_fields bt _ w0) as [[u'|e] w3];
    [|discriminate].
  intros [= <- <-]. simpl. auto.
Qed.

(** C5, as the code has it: when a round of the handler catches a soft
    violation and no entry of the trace has the target signature,
    [backtrack_to] keeps the value it had, and "Specified module not found
    in trace" is logged if that value is [None].  In either case the
    violation is not raised again: the message and the failure are recorded
    under the value [backtrack_to] has, and the loop goes on with its next
    round, from steps the [except] block did not touch.  With no step
    resolved before, no later round augments a step. *)
Theorem unresolved_target_continues (func : M PyVal) (N i : Z)
    (rest : list Z) (s : Signature) (l l1 : Locals) (w w1 w2 : World)
    (e_id : Id) (e_msg : string) (e_state : Loc) :
  s <> "" ->
  (i =? N)%Z = false ->
  augment_if_due i l w = (Ok l1, w1) ->
  func w1 = (Raise (DSPySuggestionError e_id e_msg e_state), w2) ->
  lists w2 e_state <> [] ->
  current_trace w2 <> [] ->
  (forall e, In e (current_trace w2) ->
             signature (predictors w2 (te_mod e)) <> s) ->
  exists error_state l' w',
    last_element (lists w2 e_state) = Some error_state /\
    backtrack_loop func N (Some s) (i :: rest) l w
    = backtrack_loop func N (Some s) rest l' w' /\
    backtrack_to l' = backtrack_to l /\
    error_msg l' = Some e_msg /\
    predictor_feedbacks l'
    = record_feedback (backtrack_to l) e_msg (predictor_feedbacks l) /\
    failure_traces l'
    = record_failure_trace (backtrack_to l) e_id
        (te_inputs error_state, pop_injected (te_outputs error_state), e_msg)
        (failure_traces l) /\
    predictors w' = predictors w2 /\
    config w' = config w2 /\
    calls w' = calls w1 ++ [config w1] /\
    log w' = log w2 ++ match backtrack_to l with
                       | None => ["Specified module not found in trace"]
                       | Some _ => []
                       end /\
    (backtrack_to l = None ->
     forall j, augment_if_due j l' w' = (Ok l', w')).
Proof.
  intros Hs Hi Haug Hrun Hst Htr Hno.
  destruct (augment_if_due_locals _ _ _ Haug) as (Hbt & Hfb & Hft).
  rewrite backtrack_loop_cons, Haug, Hi, (invoke_eq _ _ Hrun).
  set (w3 := set_calls _ w2).
  destruct (@on_suggestion_error_resolves (Some s) e_id e_msg e_state l1 w3
              Hst Htr)
    as (error_state & w' & Hlast & Herr & Hc & Hp & Hcalls & _ & Hlog).
  cbv zeta in Herr, Hlog.
  change (predictors w3) with (predictors w2) in Herr, Hlog, Hp.
  change (current_trace w3) with (current_trace w2) in Herr, Hlog.
  rewrite (@resolve_no_match s (predictors w2) (current_trace w2)
             (backtrack_to l1) Hs Hno) in Herr, Hlog.
  rewrite Hbt, Hfb, Hft in Herr. rewrite Hbt in Hlog.
  unfold bind at 1. rewrite Herr.
  exists error_state. eexists _, w'.
  split; [exact Hlast|]. split; [reflexivity|]. cbn.
  do 4 (split; [reflexivity|]).
  split; [exact Hp|]. split; [exact Hc|]. split; [exact Hcalls|].
  split; [exact Hlog|].
  intros Hnone j. unfold augment_if_due. cbn. rewrite Hnone.
  now destruct (0 <? j)%Z.
Qed.

Lemma unresolved_target_continues_witness :
  let w2 := snd (Examples.soft_pipeline 0 Examples.w0) in
  exists error_state l' w',
    last_element (lists w2 0) = Some error_state /\
    backtrack_loop (Examples.soft_pipeline 0) 1 (Some "no such signature")
      [0%Z; 1%Z] initial_locals Examples.w0
    = backtrack_loop (Examples.soft_pipeline 0) 1 (Some "no such signature")
        [1%Z] l' w' /\
    backtrack_to l' = backtrack_to initial_locals /\
    error_msg l' = Some "be brief" /\
    predictor_feedbacks l'
    = record_feedback (backtrack_to initial_locals) "be brief"
        (predictor_feedbacks initial_locals) /\
    failure_traces l'
    = record_failure_trace (backtrack_to initial_locals) 0
        (te_inputs error_state, pop_injected (te_outputs error_state),
         "be brief")
        (failure_traces initial_locals) /\
    predictors w' = predictors w2 /\
    config w' = config w2 /\
    calls w' = calls Examples.w0 ++ [config Examples.w0] /\
    log w' = log w2 ++ match backtrack_to initial_locals with
                       | None => ["Specified module not found in trace"]
                       | Some _ => []
                       end /\
    (backtrack_to initial_locals = None ->
     forall j, augment_if_due j l' w' = (Ok l', w')).
Proof.
  cbv zeta.
  apply (@unresolved_target_continues (Examples.soft_pipeline 0) 1 0 [1%Z]
           "no such signature" initial_locals initial_locals Examples.w0
           Examples.w0 (snd (Examples.soft_pipeline 0 Examples.w0))
           0 "be brief" 0).
  - discriminate.
  - reflexivity.
  - reflexivity.
  - reflexivity.
  - discriminate.
  - discriminate.
  - intros e [<-|[]]; discriminate.
Defined.

(** C5 as it is worded fails: with a target that no step has and
    [max_backtracks = 1], the handler does not raise the violation it
    caught; it runs the pipeline once more and returns. *)
Lemma unresolved_target_is_fatal_counterexample : ~ unresolved_target_is_fatal.
Proof.
  intros H.
  destruct (H (Examples.soft_pipeline 0) 1%Z "no such signature" Examples.w0
              (snd (Examples.soft_pipeline 0 Examples.w0)) 0 "be brief" 0)
    as (w' & Hrun).
  - lia.
  - discriminate.
  - reflexivity.
  - discriminate.
  - discriminate.
  - intros e [<-|[]]; discriminate.
  - vm_compute in Hrun. discriminate Hrun.
Qed.

Example unresolved_target_run :
  let r := suggest_backtrack_handler (Examples.soft_pipeline 0) 1
             (Some "no such signature") Examples.w0 in
  fst r = Ok (PyStr "a") /\
  calls (snd r) = [mkConfig false false; mkConfig false true] /\
  log (snd r) = ["SuggestionFailed: be brief";
                 "Specified module not found in trace";
                 "SuggestionFailed: be brief"].
Proof. repeat split. Qed.

(** ** Reverting the augmented steps *)

Lemma revert_keeps_other_fields (p : PredId) (w : World) (key : string) :
  key <> "feedback" ->
  In key (signature_keys w p) ->
  In key (signature_keys (snd (_revert_predictor_signature p ["feedback"] w)) p).
Proof.
  intros Hne Hin.
  unfold _revert_predictor_signature, bind, get_world, set_extended_signature,
    modify, signature_keys. simpl. rewrite upd_same. simpl.
  now apply (dict_keys_pop_other _ String.eqb_eq).
Qed.

(** C1, evaluated on the code.  After a run with one retry the handler
    returns, yet the signature of the augmented step still has the two
    fields: the revert removes a field named [feedback].  After a run with
    two retries the step is also left with a wrapped forward, the forward
    saved for the second retry being the wrapper of the first.  When an
    augmented attempt raises a hard violation, nothing is reverted. *)
Theorem revert_leaves_step_augmented :
  (let r := suggest_backtrack_handler (Examples.qa_pipeline 0) 1 None
              Examples.w_qa in
   fst r = Ok (PyStr "a") /\
   signature_keys Examples.w_qa 0 = ["question"; "answer"] /\
   signature_keys (snd r) 0
   = ["question"; "_assert_feedback"; "_assert_traces"; "answer"] /\
   forward (predictors (snd r) 0) = original_forward) /\
  (let r := suggest_backtrack_handler (Examples.qa_pipeline 0) 2 None
              Examples.w_qa in
   fst r = Ok (PyStr "a") /\
   forward (predictors Examples.w_qa 0) = original_forward /\
   forward (predictors (snd r) 0)
   = new_forward
       [("_assert_feedback", PyStr "be brief");
        ("_assert_traces",
         PyStrList ["Failed Instruction: be brief | Output: {'answer': 'a'}"])]
       original_forward) /\
  (let r := suggest_backtrack_handler (Examples.hard_once_augmented_pipeline 0)
              2 None Examples.w_qa in
   fst r = Raise (DSPyAssertionError 1 "cite a source" 0) /\
   signature_keys (snd r) 0
   = ["question"; "_assert_feedback"; "_assert_traces"; "answer"] /\
   forward (predictors (snd r) 0) <> original_forward) /\
  (forall p w,
     In "_assert_feedback" (signature_keys w p) ->
     In "_assert_feedback"
       (signature_keys (snd (_revert_predictor_signature p ["feedback"] w)) p)).
Proof.
  split; [|split; [|split]].
  - cbv zeta. repeat split.
  - cbv zeta. repeat split.
  - cbv zeta. split; [reflexivity|]. split; [reflexivity|]. discriminate.
  - intros p w. apply revert_keeps_other_fields. discriminate.
Qed.

(** * Further properties of the code *)

(** ** Soft constraints and the bypassing handlers *)

(** X1: a soft constraint whose result is [False] is evaluated as follows.
    With [bypass_suggest] set, the failure is logged and [True] is returned.
    With the flag unset, the failure is logged and [DSPySuggestionError] is
    raised with the id, the message and the trace.  [bypass_assert] plays no
    part. *)
Theorem Suggest_call_false (cls : Kind) (id : Id) (msg : string)
    (target_module : option Signature) (w : World) :
  Suggest___call__ (mkConstraint cls id (PyBool false) msg target_module) w =
  (if bypass_suggest (config w) then Ok true
   else Raise (DSPySuggestionError id msg (trace w)),
   set_log (log w ++ [("SuggestionFailed: " ++ msg)%string]) w)
  /\ lists (snd (Suggest___call__
                   (mkConstraint cls id (PyBool false) msg target_module) w))
       (trace w) = current_trace w.
Proof.
  rewrite Suggest_call_false_cases by reflexivity. split; reflexivity.
Qed.

(** X2: under [noop_handler] no constraint with a boolean result raises,
    hard or soft, whatever the flags in force: a failure is logged and the
    evaluation returns [True]; the flags in force are restored. *)
Theorem noop_handler_suppresses (cls : Kind) (id : Id) (b : bool)
    (msg : string) (target_module : option Signature) (w : World) :
  let self := mkConstraint cls id (PyBool b) msg target_module in
  noop_handler (Constraint___call__ self) w =
  (Ok true,
   set_calls (calls w ++ [mkConfig true true])
     (if b then w else set_log (log w ++ [failure_line self]) w)).
Proof.
  destruct cls, b; reflexivity.
Qed.

(** X3: a result that is not a [bool] raises [ValueError] from either
    class, under any flags, also under [noop_handler]; nothing is logged and
    the flags in force are restored. *)
Theorem not_bool_is_never_suppressed (self : Constraint) (w : World) :
  is_py_bool (c_result self) = false ->
  exists text,
    Constraint___call__ self w = (Raise (ValueError text), w) /\
    noop_handler (Constraint___call__ self) w
    = (Raise (ValueError text), set_calls (calls w ++ [mkConfig true true]) w).
Proof.
  intros H. unfold noop_handler, context, invoke, Constraint___call__,
    Assert___call__, Suggest___call__.
  destruct (c_cls self), (c_result self); try discriminate H;
    eexists; split; reflexivity.
Qed.

Lemma not_bool_is_never_suppressed_witness :
  exists text,
    Constraint___call__ (mkConstraint KAssert 0 (PyInt 1) "cite" None)
      Examples.w0 = (Raise (ValueError text), Examples.w0) /\
    noop_handler
      (Constraint___call__ (mkConstraint KAssert 0 (PyInt 1) "cite" None))
      Examples.w0
    = (Raise (ValueError text),
       set_calls (calls Examples.w0 ++ [mkConfig true true]) Examples.w0).
Proof.
  exact (@not_bool_is_never_suppressed
           (mkConstraint KAssert 0 (PyInt 1) "cite" None) Examples.w0 eq_refl).
Defined.

(** X4: [bypass_assert_handler] overrides [bypass_assert] only.  Under it a
    failing hard constraint is logged and passes, while a failing soft
    constraint raises or passes as [bypass_suggest] in force says. *)
Theorem bypass_assert_handler_scope (cls : Kind) (id : Id) (msg : string)
    (target_module : option Signature) (w : World) :
  let self := mkConstraint cls id (PyBool false) msg target_module in
  let called := mkConfig true (bypass_suggest (config w)) in
  bypass_assert_handler (Assert___call__ self) w =
  (Ok true,
   set_calls (calls w ++ [called])
     (set_log (log w ++ [("AssertionError: " ++ msg)%string]) w)) /\
  bypass_assert_handler (Suggest___call__ self) w =
  (if bypass_suggest (config w) then Ok true
   else Raise (DSPySuggestionError id msg (trace w)),
   set_calls (calls w ++ [called])
     (set_log (log w ++ [("SuggestionFailed: " ++ msg)%string]) w)).
Proof.
  cbv zeta. unfold bypass_assert_handler, context, invoke.
  rewrite Assert_call_false_cases, Suggest_call_false_cases by reflexivity.
  cbn. destruct (bypass_suggest (config w)); split; reflexivity.
Qed.

(** X5: [assert_no_except_handler] turns a hard violation of the pipeline
    into the return value [None] and never raises one itself; a soft
    violation, like any other outcome, passes through it. *)
Theorem assert_no_except_handler_outcomes (func : M PyVal) (w : World) :
  (forall e_id e_msg e_state w',
     assert_no_except_handler func w
     <> (Raise (DSPyAssertionError e_id e_msg e_state), w')) /\
  (forall e w1,
     func w = (Raise e, w1) ->
     assert_no_except_handler func w
     = (if is_assertion_error e then Ok PyNone else Raise e,
        set_calls (calls w ++ [config w]) w1)) /\
  (forall v w1,
     func w = (Ok v, w1) ->
     assert_no_except_handler func w
     = (Ok v, set_calls (calls w ++ [config w]) w1)).
Proof.
  unfold assert_no_except_handler, invoke.
  destruct (func w) as [[v|e] w1]; repeat split.
  - discriminate.
  - intros e0 w2 H. discriminate H.
  - intros v0 w2 [= <- <-]. reflexivity.
  - intros. destruct e; discriminate.
  - intros e0 w2 [= <- <-]. destruct e; reflexivity.
  - intros v0 w2 H. discriminate H.
Qed.

(** ** Edges of the backtracking handler *)

Lemma py_range_nonpositive (n : Z) : (n <= 0)%Z -> py_range n = [].
Proof.
  intros H. unfold py_range.
  replace (Z.to_nat n) with 0 by lia. reflexivity.
Qed.

Lemma py_range_first (N : Z) :
  (0 <= N)%Z ->
  py_range (N + 1) = 0%Z :: map Z.of_nat (seq 1 (Z.to_nat N)).
Proof. intros H. now rewrite py_range_succ. Qed.

Lemma augment_if_due_first (l : Locals) (w : World) :
  augment_if_due 0 l w = (Ok l, w).
Proof. reflexivity. Qed.

(** The first round of a handler with a budget, up to the outcome of the
    pipeline. *)
Lemma handler_first_round (func : M PyVal) (N : Z)
    (target_module : option Signature) (w : World) :
  (0 < N)%Z ->
  suggest_backtrack_handler func N target_module w =
  (l <- (fun w0 =>
           match invoke func w0 with
           | (Ok r, w') => (Ok (set_result r initial_locals), w')
           | (Raise (DSPySuggestionError e_id e_msg e_state), w') =>
               (l2 <- on_suggestion_error target_module e_id e_msg e_state
                        initial_locals;;
                backtrack_loop func N target_module
                  (map Z.of_nat (seq 1 (Z.to_nat N))) l2) w'
           | (Raise e, w') => (Raise e, w')
           end);;
   revert_predictors (predictors_to_original_forward l);;;
   ret (result l)) w.
Proof.
  intros HN. unfold suggest_backtrack_handler.
  rewrite py_range_first by lia.
  unfold bind at 1. rewrite backtrack_loop_cons, augment_if_due_first.
  assert (Hi : (0 =? N)%Z = false) by (apply Z.eqb_neq; lia).
  rewrite Hi. reflexivity.
Qed.

(** X6: with a budget of at least one retry, an exception of the first
    attempt that is not a [DSPySuggestionError] (a hard violation, a
    [ValueError], anything else) leaves the handler at once: the pipeline
    has run once, under the flags in force, and nothing else was done. *)
Theorem only_suggestions_are_retried (func : M PyVal) (N : Z)
    (target_module : option Signature) (w w1 : World) (e : Exn) :
  (0 < N)%Z ->
  is_suggestion_error e = false ->
  func w = (Raise e, w1) ->
  suggest_backtrack_handler func N target_module w
  = (Raise e, set_calls (calls w ++ [config w]) w1).
Proof.
  intros HN He Hrun. rewrite handler_first_round by exact HN.
  unfold bind at 1. rewrite (invoke_eq _ _ Hrun).
  destruct e; try reflexivity. discriminate He.
Qed.

Lemma only_suggestions_are_retried_witness :
  suggest_backtrack_handler (Assert___call__ Examples.cited;;; ret PyNone) 3
    None Examples.w0
  = (Raise (DSPyAssertionError 1 "cite a source" 0),
     set_calls (calls Examples.w0 ++ [config Examples.w0])
       (set_log ["AssertionError: cite a source"] Examples.w0)).
Proof.
  apply (@only_suggestions_are_retried
           (Assert___call__ Examples.cited;;; ret PyNone) 3 None
           Examples.w0 _ (DSPyAssertionError 1 "cite a source" 0)).
  - lia.
  - reflexivity.
  - reflexivity.
Defined.

(** X7: with a budget of at least one retry, a pipeline that returns at its
    first attempt is run once, under the flags in force; the handler returns
    its value and touches nothing: no step is augmented or reverted. *)
Theorem success_at_first_attempt (func : M PyVal) (N : Z)
    (target_module : option Signature) (w w1 : World) (v : PyVal) :
  (0 < N)%Z ->
  func w = (Ok v, w1) ->
  suggest_backtrack_handler func N target_module w
  = (Ok v, set_calls (calls w ++ [config w]) w1).
Proof.
  intros HN Hrun. rewrite handler_first_round by exact HN.
  unfold bind at 1. rewrite (invoke_eq _ _ Hrun). reflexivity.
Qed.

Lemma success_at_first_attempt_witness :
  suggest_backtrack_handler (ret (PyStr "a")) 10 None Examples.w0
  = (Ok (PyStr "a"),
     set_calls (calls Examples.w0 ++ [config Examples.w0]) Examples.w0).
Proof.
  apply (@success_at_first_attempt (ret (PyStr "a")) 10 None Examples.w0
           Examples.w0 (PyStr "a")).
  - lia.
  - reflexivity.
Defined.

(** X8: with a negative [max_backtracks] the loop has no round: the handler
    returns [None] and the pipeline is never run. *)
Theorem negative_budget_runs_nothing (func : M PyVal) (N : Z)
    (target_module : option Signature) (w : World) :
  (N < 0)%Z ->
  suggest_backtrack_handler func N target_module w = (Ok PyNone, w).
Proof.
  intros HN. unfold suggest_backtrack_handler.
  rewrite py_range_nonpositive by lia. reflexivity.
Qed.

Lemma negative_budget_runs_nothing_witness :
  suggest_backtrack_handler (Examples.qa_pipeline 0) (-1) None Examples.w0
  = (Ok PyNone, Examples.w0).
Proof.
  apply (@negative_budget_runs_nothing (Examples.qa_pipeline 0) (-1) None
           Examples.w0).
  lia.
Defined.

Lemma handler_zero_budget (func : M PyVal)
    (target_module : option Signature) (w : World) :
  suggest_backtrack_handler func 0 target_module w
  = bypass_suggest_handler func w.
Proof.
  unfold suggest_backtrack_handler.
  change (py_range (0 + 1)) with [0%Z].
  unfold bind at 1. rewrite backtrack_loop_cons, augment_if_due_first.
  change (0 =? 0)%Z with true. cbv beta iota.
  unfold bind at 1.
  destruct (bypass_suggest_handler func w) as [[v|e] w1]; reflexivity.
Qed.

(** X9: with [max_backtracks = 0] the handler is [bypass_suggest_handler]:
    its only attempt is the forced one, run with [bypass_suggest] on and
    [bypass_assert] off, whose outcome, a value or any exception, is the
    outcome of the handler; the flags in force are restored. *)
Theorem zero_budget_is_bypass_suggest (func : M PyVal)
    (target_module : option Signature) (w : World) :
  suggest_backtrack_handler func 0 target_module w
  = bypass_suggest_handler func w /\
  suggest_backtrack_handler func 0 target_module w
  = (fst (func (set_config (mkConfig false true) w)),
     set_config (config w)
       (set_calls (calls w ++ [mkConfig false true])
          (snd (func (set_config (mkConfig false true) w))))).
Proof.
  rewrite handler_zero_budget. split; [reflexivity|].
  apply bypass_suggest_handler_eq.
  now destruct (func (set_config (mkConfig false true) w)).
Qed.

(** X10: a soft violation raised before any step ran carries an empty
    trace; with a budget of at least one retry the handler then fails in
    [e.state[-1]]: it raises [IndexError] and does not retry. *)
Theorem empty_state_raises_IndexError (func : M PyVal) (N : Z)
    (target_module : option Signature) (w w1 : World) (e_id : Id)
    (e_msg : string) (e_state : Loc) :
  (0 < N)%Z ->
  func w = (Raise (DSPySuggestionError e_id e_msg e_state), w1) ->
  lists w1 e_state = [] ->
  suggest_backtrack_handler func N target_module w
  = (Raise IndexError, set_calls (calls w ++ [config w]) w1).
Proof.
  intros HN Hrun Hst. rewrite handler_first_round by exact HN.
  unfold bind at 1. rewrite (invoke_eq _ _ Hrun).
  unfold bind at 1. unfold on_suggestion_error, bind, get_world.
  cbn [lists set_calls]. rewrite Hst. reflexivity.
Qed.

Lemma empty_state_raises_IndexError_witness :
  suggest_backtrack_handler (Suggest___call__ Examples.brief;;; ret PyNone) 2
    None Examples.w0
  = (Raise IndexError,
     set_calls (calls Examples.w0 ++ [config Examples.w0])
       (set_log ["SuggestionFailed: be brief"] Examples.w0)).
Proof.
  apply (@empty_state_raises_IndexError
           (Suggest___call__ Examples.brief;;; ret PyNone) 2 None Examples.w0 _
           0 "be brief" 0).
  - lia.
  - reflexivity.
  - reflexivity.
Defined.

(** ** The forward wrapper *)

Lemma setdefaults_get (defaults kws : Store) (k : string) :
  dict_get String.eqb k
    (fold_left
       (fun kws av => fst (dict_setdefault String.eqb (fst av) (snd av) kws))
       defaults kws)
  = match dict_get String.eqb k kws with
    | Some v => Some v
    | None => dict_get String.eqb k defaults
    end.
Proof.
  revert kws. induction defaults as [|[a v] defaults IH]; intros kws.
  - simpl. now destruct (dict_get String.eqb k kws).
  - cbn [fold_left fst snd]. rewrite IH. unfold dict_setdefault.
    cbn [dict_get].
    destruct (dict_get String.eqb a kws) as [v'|] eqn:Ea; cbn [fst].
    + destruct (dict_get String.eqb k kws) eqn:Ek; [reflexivity|].
      destruct (String.eqb k a) eqn:E; [|reflexivity].
      apply String.eqb_eq in E. congruence.
    + destruct (String.eqb k a) eqn:E.
      * apply String.eqb_eq in E. subst k.
        rewrite dict_get_set_same by apply String.eqb_refl.
        now rewrite Ea.
      * rewrite (@dict_get_set_other _ _ String.eqb String.eqb_eq)
          by (now apply String.eqb_neq).
        reflexivity.
Qed.

(** X11: a wrapped forward passes on every argument of its caller as it
    is; an argument the caller did not pass gets the default of the
    outermost wrapper that has one, and stays absent if none has. *)
Theorem caller_arguments_win (fwd : Forward) (kws : Store) (key : string) :
  dict_get String.eqb key (forwarded_kwargs fwd kws)
  = match dict_get String.eqb key kws with
    | Some v => Some v
    | None => wrapper_default key fwd
    end.
Proof.
  revert kws. induction fwd as [|defaults wrapped IH]; intros kws; simpl.
  - now destruct (dict_get String.eqb key kws).
  - rewrite IH, setdefaults_get.
    destruct (dict_get String.eqb key kws); [reflexivity|].
    now destruct (dict_get String.eqb key defaults).
Qed.

(** ** Extending and reverting a signature *)

Lemma NoDup_insert {A} (a : A) (l1 l2 : list A) :
  NoDup (l1 ++ l2) -> ~ In a (l1 ++ l2) -> NoDup (l1 ++ a :: l2).
Proof.
  intros H Ha. apply (NoDup_Add (Add_app a l1 l2)). now split.
Qed.

Lemma filter_notin (k : string) (l : list string) :
  ~ In k l -> filter (fun x => negb (String.eqb x k)) l = l.
Proof.
  induction l as [|a l IH]; simpl; intros H; [reflexivity|].
  destruct (String.eqb a k) eqn:E.
  - apply String.eqb_eq in E. tauto.
  - simpl. rewrite IH; tauto.
Qed.

(** Two dictionaries with the same keys in the same order and the same
    value at every key are one dictionary. *)
Lemma dict_ext {V} (d1 d2 : pydict string V) :
  NoDup (dict_keys d1) ->
  dict_keys d1 = dict_keys d2 ->
  (forall k, dict_get String.eqb k d1 = dict_get String.eqb k d2) ->
  d1 = d2.
Proof.
  revert d2. induction d1 as [|[k1 v1] d1 IH]; intros [|[k2 v2] d2];
    simpl; try discriminate; [reflexivity|].
  intros Hnd [= <- Hk] Hget.
  apply NoDup_cons_iff in Hnd as [Hk1 Hnd].
  pose proof (Hget k1) as H1. rewrite String.eqb_refl in H1.
  injection H1 as <-. f_equal. apply IH; [exact Hnd | exact Hk |].
  intros k. destruct (String.eqb k k1) eqn:E.
  - apply String.eqb_eq in E. subst k.
    assert (H2 : ~ In k1 (dict_keys d2)) by now rewrite <- Hk.
    destruct (dict_get String.eqb k1 d1) eqn:E1.
    { exfalso. apply Hk1, (dict_get_In _ String.eqb_eq). congruence. }
    destruct (dict_get String.eqb k1 d2) eqn:E2; [|reflexivity].
    exfalso. apply H2, (dict_get_In _ String.eqb_eq). congruence.
  - specialize (Hget k). now rewrite E in Hget.
Qed.

Lemma dict_pop_keys {V} (k : string) (d : pydict string V) :
  NoDup (dict_keys d) ->
  dict_keys (dict_pop String.eqb k d)
  = filter (fun x => negb (String.eqb x k)) (dict_keys d).
Proof.
  induction d as [|[k0 v0] d IH]; simpl; intros Hnd; [reflexivity|].
  apply NoDup_cons_iff in Hnd as [Hk0 Hnd].
  rewrite (String.eqb_sym k0 k).
  destruct (String.eqb k k0) eqn:E; simpl.
  - apply String.eqb_eq in E. subst k0. now rewrite filter_notin.
  - now rewrite IH.
Qed.

Lemma dict_pop_get {V} (k k' : string) (d : pydict string V) :
  NoDup (dict_keys d) ->
  dict_get String.eqb k' (dict_pop String.eqb k d)
  = if String.eqb k' k then None else dict_get String.eqb k' d.
Proof.
  induction d as [|[k0 v0] d IH]; simpl; intros Hnd.
  - now destruct (String.eqb k' k).
  - apply NoDup_cons_iff in Hnd as [Hk0 Hnd].
    destruct (String.eqb k k0) eqn:E.
    + apply String.eqb_eq in E. subst k0.
      destruct (String.eqb k' k) eqn:E'; [|reflexivity].
      apply String.eqb_eq in E'. subst k'.
      destruct (dict_get String.eqb k d) eqn:Ed; [|reflexivity].
      exfalso. apply Hk0, (dict_get_In _ String.eqb_eq). congruence.
    + simpl. destruct (String.eqb k' k0) eqn:E0.
      * apply String.eqb_eq in E0. subst k'. now rewrite String.eqb_sym, E.
      * now apply IH.
Qed.

Lemma not_injected_question : not_injected "question" = true.
Proof. reflexivity. Qed.

(** The keys of an extended signature do not repeat. *)
Lemma extended_keys_NoDup (pre post : list string) :
  NoDup (pre ++ "question" :: post) ->
  ~ In "_assert_feedback" pre ->
  ~ In "_assert_traces" pre ->
  NoDup (pre ++ ["question"; "_assert_feedback"; "_assert_traces"]
             ++ filter not_injected post).
Proof.
  intros Hnd Hf Ht.
  assert (Hpre : filter not_injected pre = pre).
  { clear Hnd. induction pre as [|a pre IH]; simpl; [reflexivity|].
    simpl in Hf, Ht. unfold not_injected at 1.
    destruct (String.eqb a "_assert_feedback") eqn:E1;
      [apply String.eqb_eq in E1; tauto|].
    destruct (String.eqb a "_assert_traces") eqn:E2;
      [apply String.eqb_eq in E2; tauto|].
    simpl. rewrite IH; tauto. }
  assert (Hbase : NoDup (pre ++ "question" :: filter not_injected post)).
  { rewrite <- Hpre.
    change ("question" :: filter not_injected post)
      with (filter not_injected ("question" :: post)).
    rewrite <- filter_app. now apply NoDup_filter. }
  assert (Hni : forall k, not_injected k = false ->
            ~ In k (pre ++ "question" :: filter not_injected post)).
  { intros k Hk Hin. apply in_app_or in Hin as [Hin|[<-|Hin]].
    - rewrite <- Hpre in Hin. apply filter_In in Hin as [_ Hin]. congruence.
    - discriminate Hk.
    - apply filter_In in Hin as [_ Hin]. congruence. }
  change (pre ++ ["question"; "_assert_feedback"; "_assert_traces"]
              ++ filter not_injected post)
    with (pre ++ "question" :: "_assert_feedback"
              :: "_assert_traces" :: filter not_injected post).
  replace (pre ++ "question" :: "_assert_feedback"
               :: "_assert_traces" :: filter not_injected post)
    with ((pre ++ ["question"]) ++ "_assert_feedback"
               :: "_assert_traces" :: filter not_injected post)
    by (now rewrite <- app_assoc).
  apply NoDup_insert.
  - replace ((pre ++ ["question"]) ++ "_assert_traces" :: filter not_injected post)
      with ((pre ++ ["question"]) ++ "_assert_traces" :: filter not_injected post)
      by reflexivity.
    apply NoDup_insert.
    + now rewrite <- app_assoc.
    + rewrite <- app_assoc. now apply Hni.
  - intros Hin. rewrite <- app_assoc in Hin.
    apply in_app_or in Hin as [Hin|[Hin|[Hin|Hin]]]; try discriminate Hin.
    + apply (Hni "_assert_feedback" eq_refl). apply in_or_app. now left.
    + apply (Hni "_assert_feedback" eq_refl). apply in_or_app. right. now right.
Qed.

Lemma predictor_eta (pr : Predictor) :
  mkPredictor (signature pr)
    (mkTemplate (instructions (extended_signature pr))
       (kwargs (extended_signature pr)))
    (forward pr) = pr.
Proof. destruct pr as [s [i k] f]. reflexivity. Qed.

Lemma extend_run (p : PredId) (w : World) (new : pydict string Field) :
  extend_kwargs (kwargs (extended_signature (predictors w p))) injected_fields
  = Some new ->
  _extend_predictor_signature p injected_fields w
  = (Ok tt,
     set_predictors
       (upd (predictors w) p
          (mkPredictor (signature (predictors w p))
             (mkTemplate (instructions (extended_signature (predictors w p)))
                new)
             (forward (predictors w p)))) w).
Proof.
  intros H. unfold _extend_predictor_signature, bind, get_world. now rewrite H.
Qed.

Lemma filter_pop_both (l : list string) :
  filter (fun x => negb (String.eqb x "_assert_traces"))
    (filter (fun x => negb (String.eqb x "_assert_feedback")) l)
  = filter not_injected l.
Proof.
  induction l as [|a l IH]; simpl; [reflexivity|].
  unfold not_injected at 1.
  destruct (String.eqb a "_assert_feedback") eqn:E1; simpl; [exact IH|].
  destruct (String.eqb a "_assert_traces") eqn:E2; simpl; [exact IH|].
  now rewrite IH.
Qed.

Lemma revert_run (p : PredId) (args : list string) (w : World) :
  _revert_predictor_signature p args w
  = (Ok tt,
     set_predictors
       (upd (predictors w) p
          (mkPredictor (signature (predictors w p))
             (mkTemplate (instructions (extended_signature (predictors w p)))
                (fold_left (fun d key => dict_pop String.eqb key d) args
                   (kwargs (extended_signature (predictors w p)))))
             (forward (predictors w p)))) w).
Proof. reflexivity. Qed.

(** X12: the two helpers are inverse to each other when the revert is given
    the names of the fields that were added: extending a signature that has
    [question] and neither new name, then reverting
    [_assert_feedback] and [_assert_traces], gives the step back as it
    was. *)
Theorem extend_then_revert (p : PredId) (w : World) :
  NoDup (signature_keys w p) ->
  In "question" (signature_keys w p) ->
  ~ In "_assert_feedback" (signature_keys w p) ->
  ~ In "_assert_traces" (signature_keys w p) ->
  exists w1 w2,
    _extend_predictor_signature p injected_fields w = (Ok tt, w1) /\
    _revert_predictor_signature p ["_assert_feedback"; "_assert_traces"] w1
    = (Ok tt, w2) /\
    predictors w2 p = predictors w p.
Proof.
  intros Hnd Hq Hf Ht.
  destruct (in_split _ _ Hq) as (pre & post & Hkeys).
  assert (Hfpre : ~ In "_assert_feedback" pre)
    by (intros H; apply Hf; rewrite Hkeys; apply in_or_app; now left).
  assert (Htpre : ~ In "_assert_traces" pre)
    by (intros H; apply Ht; rewrite Hkeys; apply in_or_app; now left).
  destruct (@extend_kwargs_keys _ _ _ Hkeys Hnd Hfpre Htpre)
    as (new & Hnew & Hk & Hget).
  pose proof (extended_keys_NoDup _ _
                (eq_ind _ (fun l => NoDup l) Hnd _ Hkeys) Hfpre Htpre) as Hnd1.
  rewrite <- Hk in Hnd1.
  rewrite (@extend_run p w new Hnew).
  eexists _, _. split; [reflexivity|]. rewrite revert_run.
  split; [reflexivity|].
  cbn. rewrite !upd_same. cbn.
  rewrite <- (predictor_eta (predictors w p)) at 4. f_equal. f_equal.
  assert (Hnd2 : NoDup (dict_keys (dict_pop String.eqb "_assert_feedback" new)))
    by (rewrite dict_pop_keys by exact Hnd1; now apply NoDup_filter).
  symmetry. apply dict_ext.
  - exact Hnd.
  - rewrite !dict_pop_keys by assumption. rewrite Hk.
    fold (signature_keys w p).
    assert (Hold : filter not_injected (signature_keys w p) = signature_keys w p).
    { apply forallb_filter_id. apply forallb_forall.
      intros k Hin. unfold not_injected.
      destruct (String.eqb k "_assert_feedback") eqn:E1;
        [apply String.eqb_eq in E1; subst; contradiction|].
      destruct (String.eqb k "_assert_traces") eqn:E2;
        [apply String.eqb_eq in E2; subst; contradiction|].
      reflexivity. }
    rewrite <- Hold at 1. rewrite Hkeys, !filter_app. cbn.
    rewrite !filter_pop_both, filter_idem. reflexivity.
  - intros k. rewrite !dict_pop_get by assumption. rewrite Hget.
    destruct (String.eqb k "_assert_traces") eqn:E2.
    { apply String.eqb_eq in E2. subst k.
      destruct (dict_get String.eqb "_assert_traces"
                  (kwargs (extended_signature (predictors w p)))) eqn:E;
        [|reflexivity].
      exfalso. apply Ht, (dict_get_In _ String.eqb_eq). congruence. }
    destruct (String.eqb k "_assert_feedback") eqn:E1.
    { apply String.eqb_eq in E1. subst k.
      destruct (dict_get String.eqb "_assert_feedback"
                  (kwargs (extended_signature (predictors w p)))) eqn:E;
        [|reflexivity].
      exfalso. apply Hf, (dict_get_In _ String.eqb_eq). congruence. }
    cbn. now rewrite E1, E2.
Qed.

Lemma extend_then_revert_witness :
  exists w1 w2,
    _extend_predictor_signature 0 injected_fields Examples.w_qa = (Ok tt, w1) /\
    _revert_predictor_signature 0 ["_assert_feedback"; "_assert_traces"] w1
    = (Ok tt, w2) /\
    predictors w2 0 = predictors Examples.w_qa 0.
Proof.
  apply (@extend_then_revert 0 Examples.w_qa).
  - repeat constructor; simpl; intuition discriminate.
  - simpl. auto.
  - simpl. intuition discriminate.
  - simpl. intuition discriminate.
Defined.

(** X13: extending a signature a second time changes nothing: the fields
    are not added twice and keep their place, so a step that is augmented in
    several retries has the signature of its first augmentation. *)
Theorem extend_is_idempotent (p : PredId) (w : World)
    (pre post : list string) :
  signature_keys w p = pre ++ "question" :: post ->
  NoDup (signature_keys w p) ->
  ~ In "_assert_feedback" pre ->
  ~ In "_assert_traces" pre ->
  exists w1 w2,
    _extend_predictor_signature p injected_fields w = (Ok tt, w1) /\
    _extend_predictor_signature p injected_fields w1 = (Ok tt, w2) /\
    predictors w2 p = predictors w1 p.
Proof.
  intros Hkeys Hnd Hf Ht.
  destruct (@extend_kwargs_keys _ _ _ Hkeys Hnd Hf Ht)
    as (new & Hnew & Hk & Hget).
  pose proof (extended_keys_NoDup _ _
                (eq_ind _ (fun l => NoDup l) Hnd _ Hkeys) Hf Ht) as Hnd1.
  rewrite <- Hk in Hnd1.
  assert (Hk1 : dict_keys new
                = pre ++ "question"
                      :: ("_assert_feedback" :: "_assert_traces"
                            :: filter not_injected post)) by exact Hk.
  destruct (@extend_kwargs_keys new pre _ Hk1 Hnd1 Hf Ht)
    as (new2 & Hnew2 & Hk2 & Hget2).
  assert (Heq : new2 = new).
  { symmetry. apply dict_ext; [exact Hnd1 | |].
    - rewrite Hk2, Hk. cbn. now rewrite filter_idem.
    - intros k. rewrite Hget2, Hget.
      now destruct (dict_get String.eqb k injected_fields). }
  subst new2.
  rewrite (@extend_run p w new Hnew).
  eexists _, _. split; [reflexivity|].
  rewrite extend_run with (new := new).
  - split; [reflexivity|]. cbn. now rewrite !upd_same.
  - cbn. rewrite upd_same. exact Hnew2.
Qed.

Lemma extend_is_idempotent_witness :
  exists w1 w2,
    _extend_predictor_signature 0 injected_fields Examples.w_qa = (Ok tt, w1) /\
    _extend_predictor_signature 0 injected_fields w1 = (Ok tt, w2) /\
    predictors w2 0 = predictors w1 0.
Proof.
  apply (@extend_is_idempotent 0 Examples.w_qa [] ["answer"]).
  - reflexivity.
  - repeat constructor; simpl; intuition discriminate.
  - simpl. tauto.
  - simpl. tauto.
Defined.

(** ** The failure traces of a step *)

Lemma existsb_filter_neq_id (i a : Id) (l : list Id) :
  Nat.eqb i a = false ->
  existsb (Nat.eqb i) (filter (fun x => negb (Nat.eqb x a)) l)
  = existsb (Nat.eqb i) l.
Proof.
  intros Hia. induction l as [|x l IH]; simpl; [reflexivity|].
  destruct (Nat.eqb x a) eqn:E; simpl.
  - apply Nat.eqb_eq in E. subst x. now rewrite Hia.
  - now rewrite IH.
Qed.

Lemma first_ids_snoc (l : list Id) (i : Id) :
  first_ids (l ++ [i]) =
  if existsb (Nat.eqb i) (first_ids l) then first_ids l
  else first_ids l ++ [i].
Proof.
  induction l as [|a l IH]; simpl; [reflexivity|].
  rewrite IH. destruct (Nat.eqb i a) eqn:Hia; simpl.
  - destruct (existsb (Nat.eqb i) (first_ids l)); [reflexivity|].
    rewrite filter_app. simpl. rewrite Hia. simpl. now rewrite app_nil_r.
  - rewrite existsb_filter_neq_id by exact Hia.
    destruct (existsb (Nat.eqb i) (first_ids l)); [reflexivity|].
    rewrite filter_app. simpl. now rewrite Hia.
Qed.

Lemma first_ids_NoDup (l : list Id) : NoDup (first_ids l).
Proof.
  induction l as [|a l IH]; simpl; constructor.
  - rewrite filter_In, negb_true_iff, Nat.eqb_neq. tauto.
  - now apply NoDup_filter.
Qed.

Lemma dict_mem_existsb_id {V} (k : Id) (d : pydict Id V) :
  dict_mem Nat.eqb k d = existsb (Nat.eqb k) (dict_keys d).
Proof.
  unfold dict_mem. induction d as [|[k0 v0] d IH]; simpl; [reflexivity|].
  destruct (Nat.eqb k k0); simpl; auto.
Qed.

Lemma failure_traces_of_record (bt : option PredId) (suggest_id : Id)
    (entry : Store * Store * string)
    (traces : pydict (option PredId) FailureTraces) :
  failure_traces_of bt (record_failure_trace bt suggest_id entry traces)
  = dict_set Nat.eqb suggest_id entry (failure_traces_of bt traces).
Proof.
  assert (Hr : forall k, pred_key_eqb k k = true)
    by (intros k; now apply pred_key_eqb_eq).
  unfold failure_traces_of, record_failure_trace, dict_setdefault.
  change (dict_get pred_key_eqb bt traces)
    with (@dict_get (option PredId) FailureTraces pred_key_eqb bt traces).
  destruct (@dict_get (option PredId) FailureTraces pred_key_eqb bt traces);
    rewrite dict_get_set_same by exact Hr; reflexivity.
Qed.

Lemma failure_traces_of_record_other (bt bt' : option PredId)
    (suggest_id : Id) (entry : Store * Store * string)
    (traces : pydict (option PredId) FailureTraces) :
  bt' <> bt ->
  failure_traces_of bt' (record_failure_trace bt suggest_id entry traces)
  = failure_traces_of bt' traces.
Proof.
  intros Hne. unfold failure_traces_of, record_failure_trace, dict_setdefault.
  change (dict_get pred_key_eqb bt traces)
    with (@dict_get (option PredId) FailureTraces pred_key_eqb bt traces).
  destruct (@dict_get (option PredId) FailureTraces pred_key_eqb bt traces);
    now rewrite !(@dict_get_set_other _ _ pred_key_eqb pred_key_eqb_eq)
      by assumption.
Qed.

(** The dictionary of a step is filled by its own failures alone. *)
Lemma failure_traces_of_record_failures (step : option PredId)
    (events : list (option PredId * (Id * (Store * Store * string)))) :
  failure_traces_of step (record_failures events [])
  = fold_left (fun d e => dict_set Nat.eqb (fst e) (snd e) d)
      (failures_for step events) [].
Proof.
  induction events as [|[s [i e]] events IH] using rev_ind; [reflexivity|].
  unfold record_failures, failures_for in *.
  rewrite fold_left_app, filter_app, map_app, fold_left_app.
  cbn [fold_left filter map fst snd].
  destruct (pred_key_eqb s step) eqn:E.
  - apply pred_key_eqb_eq in E. subst s.
    cbn [fold_left filter map fst snd].
    now rewrite failure_traces_of_record, IH.
  - cbn [fold_left map]. rewrite failure_traces_of_record_other; [exact IH|].
    intros ->. rewrite (proj2 (pred_key_eqb_eq s s) eq_refl) in E. discriminate.
Qed.

(** A dictionary filled by assignments: its keys and its values. *)
Lemma dict_of_assignments (items : list (Id * (Store * Store * string))) :
  let d := fold_left (fun d e => dict_set Nat.eqb (fst e) (snd e) d) items [] in
  dict_keys d = first_ids (map fst items) /\
  forall suggest_id, dict_get Nat.eqb suggest_id d = latest_entry suggest_id items.
Proof.
  cbv zeta. induction items as [|[i e] items [IHk IHg]] using rev_ind.
  - split; [reflexivity|]. intros suggest_id. reflexivity.
  - rewrite fold_left_app. cbn [fold_left fst snd]. split.
    + rewrite dict_keys_set, dict_mem_existsb_id, map_app.
      cbn [map fst]. rewrite first_ids_snoc, <- IHk. reflexivity.
    + intros suggest_id. unfold latest_entry. rewrite rev_app_distr.
      cbn [rev app find fst]. rewrite (Nat.eqb_sym i suggest_id).
      destruct (Nat.eqb suggest_id i) eqn:E.
      * apply Nat.eqb_eq in E. subst i.
        now rewrite dict_get_set_same by apply Nat.eqb_refl.
      * rewrite (@dict_get_set_other _ _ Nat.eqb Nat.eqb_eq)
          by (now apply Nat.eqb_neq).
        apply IHg.
Qed.

Lemma dict_get_of_item {V} (d : pydict Id V) (k : Id) (v : V) :
  NoDup (dict_keys d) -> In (k, v) d -> dict_get Nat.eqb k d = Some v.
Proof.
  induction d as [|[k0 v0] d IH]; simpl; intros Hnd Hin; [contradiction|].
  apply NoDup_cons_iff in Hnd as [Hk0 Hnd].
  destruct Hin as [[= -> ->]|Hin].
  - now rewrite Nat.eqb_refl.
  - destruct (Nat.eqb k k0) eqn:E; [|now apply IH].
    apply Nat.eqb_eq in E. subst k0. exfalso. apply Hk0.
    apply in_map_iff. now exists (k, v).
Qed.

(** X14: whatever failures a run records, for whichever steps, the
    counter-example passages of a step hold one line for every distinct
    suggestion that failed for it, in the order in which these suggestions
    first failed, and the line of a suggestion shows its latest failure: a
    later failure of the same suggestion replaces the earlier one in
    place. *)
Theorem trace_passages_latest_per_suggestion (step : option PredId)
    (events : list (option PredId * (Id * (Store * Store * string)))) :
  _build_trace_passages (failure_traces_of step (record_failures events []))
  = map (fun suggest_id =>
           match latest_entry suggest_id (failures_for step events) with
           | Some entry => passage entry
           | None => ""
           end)
        (first_ids (map fst (failures_for step events))).
Proof.
  rewrite failure_traces_of_record_failures.
  destruct (dict_of_assignments (failures_for step events)) as [Hk Hg].
  cbv zeta in Hk, Hg.
  set (d := fold_left _ _ _) in *.
  assert (Hnd : NoDup (dict_keys d)) by (rewrite Hk; apply first_ids_NoDup).
  rewrite <- Hk. unfold dict_keys. rewrite map_map.
  unfold _build_trace_passages. apply map_ext_in.
  intros [k [[ip op] msg]] Hin. cbn [fst].
  rewrite <- Hg, (dict_get_of_item _ _ _ Hnd Hin). reflexivity.
Qed.

Example passages_two_suggestions :
  _build_trace_passages
    (failure_traces_of (Some 0)
       (record_failures
          [(Some 0, (7, ([], [("answer", PyStr "a")], "be brief")));
           (Some 1, (7, ([], [("summary", PyStr "s")], "be brief")));
           (Some 0, (9, ([], [("answer", PyStr "a")], "cite a source")));
           (Some 0, (7, ([], [("answer", PyStr "b")], "be brief")))] []))
  = ["Failed Instruction: be brief | Output: {'answer': 'b'}";
     "Failed Instruction: cite a source | Output: {'answer': 'a'}"].
Proof. reflexivity. Qed.

(** The output is printed as [str.format] prints a dictionary: a string
    that holds an apostrophe is put in double quotes, and a newline or a
    backslash inside a string is escaped. *)
Example passage_quotes_as_repr :
  _build_trace_passages
    [(7, ([], [("answer", PyStr "it's")], "be brief"));
     (9, ([], [("answer", PyStr ("a" ++ newline ++ "b"));
               ("path", PyStr (String backslash "tmp"));
               ("n", PyInt (-3)); ("ok", PyBool true); ("none", PyNone);
               ("l", PyStrList ["a"; "b's"])],
          "cite a source"))]
  = [("Failed Instruction: be brief | Output: {'answer': "
      ++ String dquote ("it's" ++ String dquote "}"))%string;
     ("Failed Instruction: cite a source | Output: {'answer': 'a"
      ++ String backslash ("nb', 'path': '"
      ++ String backslash (String backslash ("tmp', 'n': -3, 'ok': True, "
      ++ "'none': None, 'l': ['a', "
      ++ String dquote ("b's" ++ String dquote "]}")))))%string].
Proof. reflexivity. Qed.

(** ** The registry, continued *)

Lemma registry_wf_ext (w w' : World) :
  registry w' = registry w -> uuid_supply w' = uuid_supply w ->
  registry_wf w -> registry_wf w'.
Proof. unfold registry_wf. intros -> ->. auto. Qed.

Lemma init_world (cls : Kind) (r : PyVal) (m : string)
    (t : option Signature) (w w1 : World) (c : Constraint)
    (i : option Constraint) :
  Constraint_self cls r m t w = (Ok (c, i), w1) ->
  registry (snd (Constraint___init__ cls r m t w)) = registry w1 /\
  uuid_supply (snd (Constraint___init__ cls r m t w)) = uuid_supply w1.
Proof.
  intros H. unfold Constraint___init__, bind. rewrite H. cbn [fst].
  destruct (call_keeps_registry c w1) as [Hr Hu].
  destruct (Constraint___call__ c w1) as [[b|e] w2]; simpl in *; auto.
Qed.

Lemma init_unhashable (cls : Kind) (r : PyVal) (m : string)
    (t : option Signature) (w : World) :
  hashable r = false ->
  Constraint___init__ cls r m t w
  = (Raise (OtherError "TypeError: unhashable type: 'list'"), w).
Proof.
  intros H. unfold Constraint___init__, bind.
  now rewrite (Constraint_self_unhashable cls _ _ _ _ H).
Qed.

(** X15: constructing a constraint, whether its evaluation returns or
    raises, keeps the registry well formed (ids are not shared) and never
    removes a constraint from it: what is registered stays registered.  A
    construction whose result cannot be hashed raises [TypeError] and
    leaves everything as it was. *)
Theorem init_keeps_registry (cls : Kind) (r : PyVal) (m : string)
    (t : option Signature) (w : World) :
  registry_wf w ->
  registry_wf (snd (Constraint___init__ cls r m t w)) /\
  (forall k c0,
     dict_get key_eqb k (registry w) = Some c0 ->
     dict_get key_eqb k (registry (snd (Constraint___init__ cls r m t w)))
     = Some c0) /\
  (hashable r = false ->
   Constraint___init__ cls r m t w
   = (Raise (OtherError "TypeError: unhashable type: 'list'"), w)).
Proof.
  intros Hwf. destruct (hashable r) eqn:Hh.
  - destruct (Constraint_self_wf cls r m t Hh Hwf)
      as (c & i & w1 & H1 & _ & _ & Hwf1).
    destruct (init_world _ _ _ _ _ H1) as [Hr Hu]. split; [|split].
    + exact (registry_wf_ext _ Hr Hu Hwf1).
    + intros k c0 Hk. rewrite Hr.
      exact (@Constraint_self_keeps cls r m t w w1 _ k c0 H1 Hk).
    + discriminate.
  - rewrite (init_unhashable cls _ _ _ _ Hh). simpl.
    split; [exact Hwf|]. split; [auto | reflexivity].
Qed.

Lemma init_keeps_registry_witness :
  registry_wf
    (snd (Constraint___init__ KSuggest (PyBool false) "be brief" None
            Examples.w0)) /\
  (forall k c0,
     dict_get key_eqb k (registry Examples.w0) = Some c0 ->
     dict_get key_eqb k
       (registry (snd (Constraint___init__ KSuggest (PyBool false) "be brief"
                         None Examples.w0)))
     = Some c0) /\
  (hashable (PyBool false) = false ->
   Constraint___init__ KSuggest (PyBool false) "be brief" None Examples.w0
   = (Raise (OtherError "TypeError: unhashable type: 'list'"), Examples.w0)).
Proof.
  apply (@init_keeps_registry KSuggest (PyBool false) "be brief" None
           Examples.w0).
  apply registry_wf_empty. reflexivity.
Defined.

(** X16: the registry is shared by the classes, and a construction whose
    tuple is registered evaluates the registered object with the method of
    its class.  So [dspy.Assert] with the tuple of a registered failing
    [Suggest] acts as that soft constraint: it raises
    [DSPySuggestionError], or passes when [bypass_suggest] is on, whatever
    [bypass_assert] is; and [dspy.Suggest] with the tuple of a registered
    failing [Assert] acts as that hard constraint.  (A tuple that cannot be
    hashed is never registered; looking one up raises [TypeError].) *)
Theorem dedup_runs_registered_class (r : PyVal) (m : string)
    (t : option Signature) (w : World) (c : Constraint) :
  dict_get key_eqb (r, m, t) (registry w) = Some c ->
  c_result c = PyBool false ->
  (c_cls c = KSuggest ->
   Assert r m t w
   = if hashable r then
       (if bypass_suggest (config w) then Ok tt
        else Raise (DSPySuggestionError (c_id c) (c_msg c) (trace w)),
        set_log (log w ++ [("SuggestionFailed: " ++ c_msg c)%string]) w)
     else (Raise (OtherError "TypeError: unhashable type: 'list'"), w)) /\
  (c_cls c = KAssert ->
   Suggest r m t w
   = if hashable r then
       (if bypass_assert (config w) then Ok tt
        else Raise (DSPyAssertionError (c_id c) (c_msg c) (trace w)),
        set_log (log w ++ [("AssertionError: " ++ c_msg c)%string]) w)
     else (Raise (OtherError "TypeError: unhashable type: 'list'"), w)).
Proof.
  intros Hreg Hres. destruct (hashable r) eqn:Hh.
  - split; intros Hcls; unfold Assert, Suggest, Constraint___init__;
      unfold bind at 1;
      rewrite (Constraint_self_registered _ _ _ _ _ Hh Hreg);
      cbn [fst]; unfold bind, Constraint___call__; rewrite Hcls.
    + rewrite Suggest_call_false_cases by exact Hres.
      now destruct (bypass_suggest (config w)).
    + rewrite Assert_call_false_cases by exact Hres.
      now destruct (bypass_assert (config w)).
  - split; intros _; apply init_unhashable; exact Hh.
Qed.

Lemma dedup_runs_registered_class_witness :
  let w1 := set_registry [((PyBool false, "be brief", None), Examples.brief)]
              Examples.w0 in
  (c_cls Examples.brief = KSuggest ->
   Assert (PyBool false) "be brief" None w1
   = (if bypass_suggest (config w1) then Ok tt
      else Raise (DSPySuggestionError (c_id Examples.brief)
                    (c_msg Examples.brief) (trace w1)),
      set_log (log w1 ++ [("SuggestionFailed: " ++ c_msg Examples.brief)%string])
        w1)) /\
  (c_cls Examples.brief = KAssert ->
   Suggest (PyBool false) "be brief" None w1
   = (if bypass_assert (config w1) then Ok tt
      else Raise (DSPyAssertionError (c_id Examples.brief)
                    (c_msg Examples.brief) (trace w1)),
      set_log (log w1 ++ [("AssertionError: " ++ c_msg Examples.brief)%string])
        w1)).
Proof.
  exact (@dedup_runs_registered_class (PyBool false) "be brief" None
           (set_registry [((PyBool false, "be brief", None), Examples.brief)]
              Examples.w0)
           Examples.brief eq_refl eq_refl).
Defined.

(** ** The module transformer *)

Lemma backtrack_handler_runs_pipeline (N : Z)
    (target_module : option Signature) (e : Exn) :
  (0 <= N)%Z ->
  is_suggestion_error e = false ->
  runs_pipeline (fun func => suggest_backtrack_handler func N target_module) e.
Proof.
  intros HN He func Hf w. cbv beta.
  destruct (Z.eq_dec N 0) as [->|Hne].
  - rewrite handler_zero_budget.
    destruct (Hf (set_config (mkConfig false true) w)) as [w' Hrun].
    rewrite (bypass_suggest_handler_eq _ _ Hrun). eauto.
  - rewrite handler_first_round by lia.
    destruct (Hf w) as [w' Hrun].
    unfold bind at 1. rewrite (invoke_eq _ _ Hrun).
    destruct e; try discriminate He; eauto.
Qed.

Section CallsFacts.

Variable configure_bypass_assert : PyVal -> M unit.

(** X17: a module without a [forward] is refused with [ValueError] and
    left alone.  Otherwise the old [forward] is kept as [_forward], and a
    call of the new [forward] whose arguments bind runs the handler around
    the old [forward], after [bypass_assert] was configured if the old
    [forward] has that parameter; arguments that do not bind raise
    [TypeError] before the handler is entered. *)
Theorem transformed_forward_runs_handler (name : string)
    (old__forward : option Method) (assertion_handler : Handler)
    (binds : bool) (bypass_assert_arg : option PyVal) (body : M PyVal)
    (depth : nat) (w : World) :
  assert_transform_module (mkModuleObj name None old__forward)
    assertion_handler w
  = (Raise (ValueError
              "Module must have a forward method to have assertions handled."),
     w) /\
  exists m1 w1,
    assert_transform_module
      (mkModuleObj name
         (Some (class_forward binds bypass_assert_arg body)) old__forward)
      assertion_handler w = (Ok m1, w1) /\
    m__forward m1 = Some (class_forward binds bypass_assert_arg body) /\
    forall w',
      call_forward configure_bypass_assert (S (S depth)) m1 w'
      = if binds then
          ((match bypass_assert_arg with
            | Some v => configure_bypass_assert v
            | None => ret tt
            end);;;
           assertion_handler body) w'
        else (Raise (OtherError "TypeError"), w').
Proof.
  split; [reflexivity|].
  unfold assert_transform_module. cbn [m_forward m__forward class_name].
  destruct old__forward as [old|]; unfold bind, logger_info, modify, ret;
    eexists _, _; (split; [reflexivity|]); (split; [reflexivity|]);
    intros w'; destruct binds; reflexivity.
Qed.

(** A module that was transformed twice holds the first wrapper as its
    [_forward]; that wrapper reads [self._forward] and finds itself, until
    [inspect.getcallargs] has no stack left to work in. *)
Lemma twice_transformed_recurses (name : string) (h1 h2 : Handler)
    (depth : nat) :
  runs_pipeline h1 (OtherError "TypeError: unsupported callable") ->
  forall h : Handler,
    runs_pipeline h (OtherError "TypeError: unsupported callable") ->
    forall w, exists w',
      call_method configure_bypass_assert (S depth)
        (mkModuleObj name (Some (handled_forward h2))
           (Some (handled_forward h1)))
        (handled_forward h) w
      = (Raise (OtherError "TypeError: unsupported callable"), w').
Proof.
  intros H1. induction depth as [|depth IH]; intros h Hh w.
  - exists w. reflexivity.
  - cbn [call_method m__forward]. cbn [bind_call_args]. unfold bind at 1.
    unfold ret at 1. apply Hh. intros w0. apply IH. exact H1.
Qed.

(** X18: transforming a module a second time logs "Skipping..." and does
    not skip: [_forward] becomes the wrapper of the first transformation.
    With handlers that run their pipeline, every call of [forward] then
    nests until the stack runs out inside [inspect.getcallargs] and ends in
    [TypeError('unsupported callable')], whatever the recursion limit, and
    the [forward] the module was defined with is never run. *)
Theorem transform_twice_never_returns (module : ModuleObj) (fwd : Method)
    (h1 h2 : Handler) (w : World) :
  m_forward module = Some fwd ->
  runs_pipeline h1 (OtherError "TypeError: unsupported callable") ->
  runs_pipeline h2 (OtherError "TypeError: unsupported callable") ->
  exists m1 w1 m2,
    assert_transform_module module h1 w = (Ok m1, w1) /\
    assert_transform_module m1 h2 w1
    = (Ok m2,
       set_log (log w1 ++ [("Module " ++ class_name module
                            ++ " already has a _forward method. Skipping...")%string])
         w1) /\
    m__forward m2 = Some (handled_forward h1) /\
    forall depth w', exists w'',
      call_forward configure_bypass_assert (S depth) m2 w'
      = (Raise (OtherError "TypeError: unsupported callable"), w'').
Proof.
  intros Hf H1 H2.
  unfold assert_transform_module at 1. rewrite Hf.
  unfold bind at 1.
  destruct ((match m__forward module with
             | Some _ => _
             | None => ret tt
             end) w) as [[u|e] w1] eqn:E.
  2:{ exfalso. destruct (m__forward module);
        unfold logger_info, modify, ret in E; discriminate E. }
  eexists _, w1, _. split; [reflexivity|].
  split; [reflexivity|]. split; [reflexivity|].
  intros depth w'. unfold call_forward. cbn [m_forward].
  now apply twice_transformed_recurses.
Qed.

End CallsFacts.

Lemma transform_twice_never_returns_witness :
  let h : Handler := fun func => suggest_backtrack_handler func 10 None in
  let module := mkModuleObj "QA"
                  (Some (class_forward true None (Examples.qa_pipeline 0)))
                  None in
  exists m1 w1 m2,
    assert_transform_module module h Examples.w_qa = (Ok m1, w1) /\
    assert_transform_module m1 h w1
    = (Ok m2,
       set_log (log w1 ++ [("Module " ++ class_name module
                            ++ " already has a _forward method. Skipping...")%string])
         w1) /\
    m__forward m2 = Some (handled_forward h) /\
    forall depth w', exists w'',
      call_forward (fun _ => ret tt) (S depth) m2 w'
      = (Raise (OtherError "TypeError: unsupported callable"), w'').
Proof.
  cbv zeta.
  apply (@transform_twice_never_returns (fun _ => ret tt)
           (mkModuleObj "QA"
              (Some (class_forward true None (Examples.qa_pipeline 0))) None)
           (class_forward true None (Examples.qa_pipeline 0))
           (fun func => suggest_backtrack_handler func 10 None)
           (fun func => suggest_backtrack_handler func 10 None)
           Examples.w_qa eq_refl).
  - apply backtrack_handler_runs_pipeline; [lia | reflexivity].
  - apply backtrack_handler_runs_pipeline; [lia | reflexivity].
Defined.

(** Once transformed, the module of the witness answers; transformed
    again, it does not, here with room for fifty nested calls. *)
Example transform_once_and_twice :
  let h : Handler := fun func => suggest_backtrack_handler func 1 None in
  let m0 := mkModuleObj "QA"
              (Some (class_forward true None (Examples.qa_pipeline 0))) None in
  exists m1 w1 m2 w2,
    assert_transform_module m0 h Examples.w_qa = (Ok m1, w1) /\
    fst (call_forward (fun _ => ret tt) 50 m1 w1) = Ok (PyStr "a") /\
    assert_transform_module m1 h w1 = (Ok m2, w2) /\
    fst (call_forward (fun _ => ret tt) 50 m2 w2)
    = Raise (OtherError "TypeError: unsupported callable").
Proof.
  cbv zeta. eexists _, _, _, _.
  split; [reflexivity|]. split; [reflexivity|].
  split; [reflexivity|]. vm_compute. reflexivity.
Qed.

(** ** What a run of the handler leaves alone, continued *)

Section KeepsRevert.

Variable B : Type.
Variable proj : World -> B.
Hypothesis proj_predictors : forall p w, proj (set_predictors p w) = proj w.

Lemma keeps_revert_predictors (items : pydict PredId Forward) :
  keeps proj (revert_predictors items).
Proof.
  induction items as [|[p f] items IH]; [apply keeps_ret|].
  cbn [revert_predictors].
  apply keeps_bind; [|intros _; apply keeps_bind; [|intros _; exact IH]].
  - intros w. rewrite revert_run. apply proj_predictors.
  - intros w. apply proj_predictors.
Qed.

End KeepsRevert.

(** The loop leaves the flags as they are if the pipeline does, and adds
    one entry to the record of calls for every run of the pipeline, at most
    one in each round. *)
Lemma backtrack_loop_keeps (func : M PyVal) (N : Z)
    (target_module : option Signature) (indices : list Z) :
  forall (l : Locals) (w : World),
    (keeps config func ->
     config (snd (backtrack_loop func N target_module indices l w)) = config w)
    /\
    exists runs,
      calls (snd (backtrack_loop func N target_module indices l w))
      = calls w ++ runs /\
      List.length runs <= List.length indices.
Proof.
  induction indices as [|i indices IH]; intros l w.
  - split; [reflexivity|]. exists []. simpl. now rewrite app_nil_r.
  - rewrite backtrack_loop_cons.
    pose proof (@keeps_augment_if_due _ config (fun _ _ => eq_refl) i l w)
      as Hc1.
    pose proof (@keeps_augment_if_due _ calls (fun _ _ => eq_refl) i l w)
      as Hk1.
    destruct (augment_if_due i l w) as [[l1|e] w1]; simpl in Hc1, Hk1.
    2:{ split; [intros _; exact Hc1|]. exists []. simpl.
        rewrite app_nil_r. split; [exact Hk1 | lia]. }
    destruct (i =? N)%Z.
    + unfold bind, bypass_suggest_handler, context, invoke.
      destruct (func (set_config (mkConfig false true) w1)) as [[v|e] w2];
        simpl; (split; [intros _; exact Hc1|]);
        exists [mkConfig false true]; rewrite Hk1; simpl; split; auto; lia.
    + unfold invoke. pose proof (fun H : keeps config func => H w1) as Hf.
      destruct (func w1) as [[v|e] w2]; simpl in Hf.
      * simpl. split; [intros H; rewrite (Hf H); exact Hc1|].
        exists [config w1]. rewrite Hk1. simpl. split; auto; lia.
      * destruct e as [a b c|e_id e_msg e_state| | | |];
          try (simpl; split; [intros H; rewrite (Hf H); exact Hc1|];
               exists [config w1]; rewrite Hk1; simpl; split; auto; lia).
        set (w3 := set_calls (calls w1 ++ [config w1]) w2).
        pose proof (@keeps_on_suggestion_error _ config
                      (fun _ _ => eq_refl) (fun _ _ => eq_refl)
                      target_module e_id e_msg e_state l1 w3) as Hc3.
        pose proof (@keeps_on_suggestion_error _ calls
                      (fun _ _ => eq_refl) (fun _ _ => eq_refl)
                      target_module e_id e_msg e_state l1 w3) as Hk3.
        unfold bind.
        destruct (on_suggestion_error target_module e_id e_msg e_state l1 w3)
          as [[l2|e] w4]; simpl in Hc3, Hk3.
        -- destruct (IH l2 w4) as [IHc (runs & IHk & IHn)]. split.
           ++ intros H. rewrite (IHc H), Hc3. simpl. rewrite (Hf H). exact Hc1.
           ++ exists (config w1 :: runs). rewrite IHk, Hk3. simpl.
              rewrite Hk1, <- app_assoc. simpl. split; auto; lia.
        -- simpl. split.
           ++ intros H. rewrite Hc3. simpl. rewrite (Hf H). exact Hc1.
           ++ exists [config w1]. rewrite Hk3. simpl. rewrite Hk1.
              split; auto. simpl. lia.
Qed.

Lemma handler_keeps (func : M PyVal) (N : Z)
    (target_module : option Signature) (w : World) :
  (keeps config func ->
   config (snd (suggest_backtrack_handler func N target_module w)) = config w)
  /\
  exists runs,
    calls (snd (suggest_backtrack_handler func N target_module w))
    = calls w ++ runs /\
    List.length runs <= Z.to_nat (N + 1).
Proof.
  destruct (backtrack_loop_keeps func N target_module (py_range (N + 1))
              initial_locals w) as [Hc (runs & Hk & Hn)].
  assert (Hlen : List.length (py_range (N + 1)) = Z.to_nat (N + 1))
    by (unfold py_range; now rewrite length_map, length_seq).
  rewrite Hlen in Hn.
  unfold suggest_backtrack_handler, bind.
  destruct (backtrack_loop func N target_module (py_range (N + 1))
              initial_locals w) as [[l|e] w1]; simpl in Hc, Hk.
  - pose proof (@keeps_revert_predictors _ config (fun _ _ => eq_refl)
                  (predictors_to_original_forward l) w1) as Hc2.
    pose proof (@keeps_revert_predictors _ calls (fun _ _ => eq_refl)
                  (predictors_to_original_forward l) w1) as Hk2.
    destruct (revert_predictors (predictors_to_original_forward l) w1)
      as [[u|e] w2]; simpl in *.
    + split; [intros H; rewrite Hc2; auto|]. exists runs. rewrite Hk2. auto.
    + split; [intros H; rewrite Hc2; auto|]. exists runs. rewrite Hk2. auto.
  - simpl. split; [exact Hc|]. exists runs. auto.
Qed.

(** X19: the handler leaves the bypass flags as it found them on every way
    out, a return or any exception, for a pipeline that leaves them alone
    itself: the override of the forced attempt never leaks. *)
Theorem handler_restores_flags (func : M PyVal) (N : Z)
    (target_module : option Signature) (w : World) :
  keeps config func ->
  config (snd (suggest_backtrack_handler func N target_module w)) = config w.
Proof. exact (proj1 (handler_keeps func N target_module w)). Qed.

Lemma soft_pipeline_keeps_config (p : PredId) :
  keeps config (Examples.soft_pipeline p).
Proof.
  intros w.
  unfold Examples.soft_pipeline, call_predictor, trace_append, bind,
    get_world, modify.
  rewrite Suggest_call_false_cases by reflexivity.
  cbn [config set_lists]. now destruct (bypass_suggest (config w)).
Qed.

Lemma handler_restores_flags_witness :
  config (snd (suggest_backtrack_handler (Examples.soft_pipeline 0) 2 None
                 Examples.w_qa))
  = config Examples.w_qa.
Proof.
  exact (@handler_restores_flags (Examples.soft_pipeline 0) 2 None
           Examples.w_qa (soft_pipeline_keeps_config 0)).
Defined.

(** X20: no pipeline is run more than [max_backtracks + 1] times by the
    handler, whatever it does, and none at all when [max_backtracks] is
    negative; the runs the handler makes are the only entries it adds to the
    record of calls. *)
Theorem handler_runs_at_most (func : M PyVal) (N : Z)
    (target_module : option Signature) (w : World) :
  exists runs,
    calls (snd (suggest_backtrack_handler func N target_module w))
    = calls w ++ runs /\
    List.length runs <= Z.to_nat (N + 1).
Proof. exact (proj2 (handler_keeps func N target_module w)). Qed.
